(** * tools/check.py: reconciliation of the rule and explain files against
      the testing and stable package lists

    The script is embedded as a program of a small state-and-exception monad.
    The state holds the store of Python [set] objects (the script shares the
    two reference sets between both calls of [process]), the outside world
    (file system, external commands) and the trace of effects performed so
    far.  Everything the script asks of the outside world is answered by an
    oracle, so every theorem holds for all behaviours of [apt-cache], [ben],
    [git] and the file system.

    A Python [str] is modelled by a Rocq [string]; its characters stand for
    the code points U+0000 to U+00FF, on which [lower], [strip] and the
    ordering used by [sorted] are those of Python. *)

From stdpp Require Import gmap strings list sorting.
From Stdlib Require Import ZArith Ascii.

Local Open Scope Z_scope.

(** ** Python strings *)

Module Py.

(** [str.isspace] on one character, for the code points below 256:
    TAB, LF, VT, FF, CR, the separators FS, GS, RS and US, SPACE, NEL and
    the no-break space. *)
Definition isspace (c : ascii) : bool :=
  let n := N_of_ascii c in
  ((9 <=? n) && (n <=? 13) || (28 <=? n) && (n <=? 32)
   || (n =? 133) || (n =? 160))%N.

(** [str.lower] on one character: the letters A-Z and the Latin-1 capitals
    U+00C0-U+00DE, the multiplication sign U+00D7 apart, move up by 32. *)
Definition lower_char (c : ascii) : ascii :=
  let n := N_of_ascii c in
  if ((65 <=? n) && (n <=? 90)
      || (192 <=? n) && (n <=? 222) && negb (n =? 215))%N
  then ascii_of_N (n + 32) else c.

(** [s.lower()] *)
Fixpoint lower (s : string) : string :=
  match s with
  | EmptyString => EmptyString
  | String c r => String (lower_char c) (lower r)
  end.

(** [s.lstrip()] *)
Fixpoint lstrip (s : string) : string :=
  match s with
  | EmptyString => EmptyString
  | String c r => if isspace c then lstrip r else s
  end.

(** [s.rstrip()] *)
Fixpoint rstrip (s : string) : string :=
  match s with
  | EmptyString => EmptyString
  | String c r =>
      match rstrip r with
      | EmptyString => if isspace c then EmptyString else String c EmptyString
      | r' => String c r'
      end
  end.

(** [s.strip()] *)
Definition strip (s : string) : string := rstrip (lstrip s).

(** [s.startswith(p)] *)
Definition startswith (s p : string) : bool := String.prefix p s.

(** [s.split(sep, 1)] for a separator of one character: the text before the
    first separator and the text after it, or [s] alone when there is none. *)
Fixpoint split1 (sep : ascii) (s : string) : list string :=
  match s with
  | EmptyString => [EmptyString]
  | String c r =>
      if Ascii.eqb c sep then [EmptyString; r]
      else match split1 sep r with
           | h :: t => String c h :: t
           | [] => [String c EmptyString]
           end
  end.

(** Iterating over a text stream opened with universal newlines: the lines
    of the text in order, each with its terminator, where the terminators
    LF, CR and CR LF all read as LF; a last line without a terminator is
    delivered as it is. *)
Fixpoint readlines (s : string) : list string :=
  match s with
  | EmptyString => []
  | String c r =>
      if Ascii.eqb c "010" then String "010" EmptyString :: readlines r
      else if Ascii.eqb c "013" then
        match r with
        | String c' r' =>
            if Ascii.eqb c' "010" then String "010" EmptyString :: readlines r'
            else String "010" EmptyString :: readlines r
        | EmptyString => [String "010" EmptyString]
        end
      else match readlines r with
           | l :: ls => String c l :: ls
           | [] => [String c EmptyString]
           end
  end.

(** The text after the last slash of [p], when [p] has a slash. *)
Fixpoint after_last_slash (p : string) : option string :=
  match p with
  | EmptyString => None
  | String c r =>
      match after_last_slash r with
      | Some b => Some b
      | None => if Ascii.eqb c "/" then Some r else None
      end
  end.

(** [os.path.basename(p)]: [p[p.rfind('/') + 1:]] *)
Definition basename (p : string) : string :=
  default p (after_last_slash p).

(** [s.endswith('/')] *)
Fixpoint ends_with_slash (s : string) : bool :=
  match s with
  | EmptyString => false
  | String c EmptyString => Ascii.eqb c "/"
  | String _ r => ends_with_slash r
  end.

(** [os.path.join(a, b)] of [posixpath], for two components. *)
Definition join (a b : string) : string :=
  if startswith b "/" then b
  else if bool_decide (a = "") || ends_with_slash a then a +:+ b
  else a +:+ "/" +:+ b.

(** [sorted(xs)] on strings: the ordering of [str] compares code points,
    position by position. *)
Definition sorted (xs : list string) : list string :=
  merge_sort String.le xs.

End Py.

(** ** The outside world, the store and the monad of the script *)

(** What [print] is given: a string, or the list that [sorted] returned. *)
Inductive value :=
  | VStr (s : string)
  | VList (xs : list string).

(** The effects of the script, in the order in which it performs them.
    [ERun argv cwd status] is a child process that was waited for, with its
    exit status, or [None] when the program could not be started. *)
Inductive event :=
  | EPrint (args : list value)
  | EPopen (argv : list string)
  | ERun (argv : list string) (cwd : option string) (status : option Z)
  | EUnlink (path : string)
  | EMakedirs (path : string).

(** The exceptions that reach the top level of the script.  [NoObject] is
    not a Python exception: it marks a reference to a set that is not in the
    store, which no run from a well-formed state produces. *)
Inductive exn :=
  | OSError
  | CalledProcessError (status : Z)
  | IndexError
  | NoObject.

Inductive outcome (A : Type) :=
  | Ret (a : A)
  | Raise (e : exn).
Arguments Ret {A} a.
Arguments Raise {A} e.

(** The answers of the operating system.  [None] stands for a raised
    [OSError]; [os_listdir] is the directory scan inside [glob], which turns
    that error into an empty result. *)
Class OS (World : Type) := {
  os_isfile : World → string → bool;
  os_isdir : World → string → bool;
  os_listdir : World → string → option (list string);
  os_read : World → string → option string;
  os_unlink : World → string → option World;
  os_makedirs : World → string → option World;
  os_run : World → list string → option string → option (World * Z);
  os_popen : World → list string → option (World * string)
}.

(** The order in which Python enumerates a set is not specified: any
    enumeration of the members, each once. *)
Class SetOrder := {
  iter : gset string → list string;
  iter_perm : ∀ X, iter X ≡ₚ elements X
}.

(** Set objects live in a store and are named by their index in it. *)
Definition loc := nat.

Section Script.
Context {World : Type} {os : OS World} {order : SetOrder}.

(** [distro_info.DebianDistroInfo().stable()], read once when the script
    starts. *)
Variable STABLE : string.

Record state := State {
  heap : list (gset string);
  world : World;
  trace : list event
}.

Definition M (A : Type) : Type := state → outcome A * state.

#[global] Instance M_ret : MRet M := λ A a st, (Ret a, st).
#[global] Instance M_bind : MBind M := λ A B k m st,
  match m st with
  | (Ret a, st') => k a st'
  | (Raise e, st') => (Raise e, st')
  end.

Definition raise {A} (e : exn) : M A := λ st, (Raise e, st).

Definition emit (e : event) : M unit := λ st,
  (Ret tt, State (heap st) (world st) (trace st ++ [e])).

Definition get_world : M World := λ st, (Ret (world st), st).

Definition set_world (w : World) : M unit := λ st,
  (Ret tt, State (heap st) w (trace st)).

(** [for x in xs: body(x)] *)
Fixpoint for_each {A} (xs : list A) (body : A → M unit) : M unit :=
  match xs with
  | [] => mret tt
  | x :: xs' => body x ;; for_each xs' body
  end.

(** *** Set objects *)

Definition alloc (X : gset string) : M loc := λ st,
  (Ret (length (heap st)), State (heap st ++ [X]) (world st) (trace st)).

Definition deref (l : loc) : M (gset string) := λ st,
  match heap st !! l with
  | Some X => (Ret X, st)
  | None => (Raise NoObject, st)
  end.

(** [set()] *)
Definition set_new : M loc := alloc ∅.

(** [set(xs)] *)
Definition set_of_list (xs : list string) : M loc := alloc (list_to_set xs).

(** [a.add(x)]: the object itself changes. *)
Definition assign (a : loc) (X : gset string) : M unit := λ st,
  (Ret tt, State (<[a := X]> (heap st)) (world st) (trace st)).

Definition set_add (a : loc) (x : string) : M unit :=
  X ← deref a; assign a ({[x]} ∪ X).

(** [a - b]: a new object. *)
Definition set_sub (a b : loc) : M loc :=
  X ← deref a; Y ← deref b; alloc (X ∖ Y).

(** [a & b]: a new object. *)
Definition set_and (a b : loc) : M loc :=
  X ← deref a; Y ← deref b; alloc (X ∩ Y).

(** The members of [a] in the order of a [for] loop over it. *)
Definition set_iter (a : loc) : M (list string) :=
  X ← deref a; mret (iter X).

(** [sorted(a)] *)
Definition sorted (a : loc) : M (list string) :=
  xs ← set_iter a; mret (Py.sorted xs).

(** *** Input and output *)

Definition print (args : list value) : M unit := emit (EPrint args).

(** [os.path.isfile(p)] and [os.path.isdir(p)] do not raise. *)
Definition isfile (p : string) : M bool :=
  w ← get_world; mret (os_isfile w p).

Definition isdir (p : string) : M bool :=
  w ← get_world; mret (os_isdir w p).

(** [os.makedirs(p)] *)
Definition makedirs (p : string) : M unit :=
  emit (EMakedirs p);;
  w ← get_world;
  match os_makedirs w p with
  | Some w' => set_world w'
  | None => raise OSError
  end.

(** [os.unlink(p)] *)
Definition unlink (p : string) : M unit :=
  emit (EUnlink p);;
  w ← get_world;
  match os_unlink w p with
  | Some w' => set_world w'
  | None => raise OSError
  end.

(** [subprocess.call(argv, cwd=cwd)]: the exit status is returned, whatever
    it is; only a program that cannot be started raises. *)
Definition call (argv : list string) (cwd : option string) : M Z :=
  w ← get_world;
  match os_run w argv cwd with
  | Some (w', status) =>
      emit (ERun argv cwd (Some status));; set_world w';; mret status
  | None => emit (ERun argv cwd None);; raise OSError
  end.

(** [subprocess.check_call(argv, cwd=cwd)] *)
Definition check_call (argv : list string) (cwd : option string) : M unit :=
  status ← call argv cwd;
  if bool_decide (status = 0) then mret tt
  else raise (CalledProcessError status).

(** [subprocess.Popen(argv, universal_newlines=True, stdout=PIPE)] followed
    by the iteration over [proc.stdout]: the lines the child writes. *)
Definition popen_lines (argv : list string) : M (list string) :=
  emit (EPopen argv);;
  w ← get_world;
  match os_popen w argv with
  | Some (w', out) => set_world w';; mret (Py.readlines out)
  | None => raise OSError
  end.

(** [open(p, 'r', encoding='utf8')] followed by the iteration over the
    file: its lines. *)
Definition open_lines (p : string) : M (list string) :=
  w ← get_world;
  match os_read w p with
  | Some text => mret (Py.readlines text)
  | None => raise OSError
  end.

(** [glob.glob(d + '/*')]: the entries of directory [d] whose name does not
    start with a dot, each joined to [d]; nothing when [d] cannot be
    scanned. *)
Definition glob_star (d : string) : M (list string) :=
  w ← get_world;
  mret (match os_listdir w d with
        | Some names =>
            Py.join d <$> filter (λ n, Py.startswith n "." = false) names
        | None => []
        end).

(** ** The script *)

(** Lines 11-23: the names printed by [apt-cache pkgnames], then the names
    of the packages that come from repositories it does not list. *)
Definition testing : M loc :=
  testing ← set_new;
  lines ← popen_lines ["apt-cache"; "pkgnames"];
  for_each lines (λ line, set_add testing (Py.rstrip line));;
  set_add testing "raspberrypi-bootloader";;
  set_add testing "libraspberrypi0";;
  set_add testing "google-earth-stable";;
  mret testing.

(** Lines 26-31: fetch the index of stable when it is not cached. *)
Definition download : M unit :=
  cached ← isfile "tools/Packages_amd64";
  if negb cached then
    check_call ["ben"; "download"; "--archs"; "amd64"; "--suite"; "stable"]
               (Some "tools");;
    unlink "tools/Sources"
  else mret tt.

(** Lines 33-37: the [Package:] fields of the cached index. *)
Definition stable : M loc :=
  stable ← set_new;
  lines ← open_lines "tools/Packages_amd64";
  for_each lines (λ line,
    if Py.startswith line "Package:" then
      match Py.split1 ":" line !! 1%nat with
      | Some field => set_add stable (Py.strip field)
      | None => raise IndexError
      end
    else mret tt);;
  mret stable.

(** Line 40 *)
Definition filters : M loc :=
  fs ← glob_star "rules";
  set_of_list (Py.basename <$> fs).

(** Line 41 *)
Definition explain : M loc :=
  fs ← glob_star "explain";
  set_of_list (Py.basename <$> filter (λ f, f = Py.lower f) fs).

(** Lines 50-53, the body of the loop of [process]. *)
Definition process_item (category archive item : string) : M unit :=
  let destdir := Py.join "archive" archive in
  present ← isdir destdir;
  (if negb present then makedirs destdir else mret tt);;
  call ["git"; "mv"; Py.join category item; destdir] None;;
  mret tt.

(** Lines 43-54 *)
Definition process (category : string) (packages testing stable : loc)
    (archive : string) : M unit :=
  unknown ← set_sub packages testing;
  deprecated ← set_and unknown stable;
  unknown ← set_sub unknown stable;
  print [VStr ("[" +:+ category +:+ "]:")];;
  ds ← sorted deprecated;
  print [VStr ("moved to " +:+ STABLE +:+ ":"); VList ds];;
  items ← set_iter deprecated;
  for_each items (process_item category archive);;
  us ← sorted unknown;
  print [VStr "unknown:"; VList us].

(** Lines 56-58 *)
Definition reports (filters explain testing stable : loc) : M unit :=
  process "rules" filters testing stable STABLE;;
  print [];;
  process "explain" explain testing stable "explain".

(** The whole script. *)
Definition main : M unit :=
  testing ← testing;
  download;;
  stable ← stable;
  filters ← filters;
  explain ← explain;
  reports filters explain testing stable.

(** A run starts with an empty store and nothing done. *)
Definition init (w : World) : state := State [] w [].

End Script.

(** ** Reading a trace *)

(** The directory that receives the files of one category. *)
Definition destdir (archive : string) : string := Py.join "archive" archive.

(** The first line of the report of a category. *)
Definition header (category : string) : event :=
  EPrint [VStr ("[" +:+ category +:+ "]:")].

(** The line that lists the deprecated names [xs]. *)
Definition deprecated_report (STABLE : string) (xs : list string) : event :=
  EPrint [VStr ("moved to " +:+ STABLE +:+ ":"); VList xs].

(** The line that lists the unknown names [xs]. *)
Definition unknown_report (xs : list string) : event :=
  EPrint [VStr "unknown:"; VList xs].

(** [git mv category/item archive/destination], with its exit status. *)
Definition git_mv (category archive item : string) (status : option Z) : event :=
  ERun ["git"; "mv"; Py.join category item; destdir archive] None status.

(** The path that a [git mv] event moves. *)
Definition git_mv_of (e : event) : option string :=
  match e with
  | ERun [g; m; src; _] None _ =>
      if bool_decide (g = "git" ∧ m = "mv") then Some src else None
  | _ => None
  end.

(** A line of a report that lists names: the names. *)
Definition report_of (e : event) : option (list string) :=
  match e with
  | EPrint [VStr _; VList xs] => Some xs
  | _ => None
  end.

Definition is_report (e : event) : bool := bool_decide (is_Some (report_of e)).

(** The events of the archive step: creating the destination and moving. *)
Definition is_move (e : event) : bool :=
  match e with
  | EMakedirs _ => true
  | _ => bool_decide (is_Some (git_mv_of e))
  end.

(** No line of a report comes after an event of the archive step. *)
Fixpoint reports_before_moves (tr : list event) : bool :=
  match tr with
  | [] => true
  | e :: tr' =>
      if is_move e then forallb (λ e', negb (is_report e')) tr'
      else reports_before_moves tr'
  end.

(** [name] is listed by a report of the trace. *)
Definition reported (name : string) (tr : list event) : Prop :=
  ∃ e xs, e ∈ tr ∧ report_of e = Some xs ∧ name ∈ xs.

(** The trace has a [git mv] of the file of [name] in [category]. *)
Definition archived (category name : string) (tr : list event) : Prop :=
  ∃ e, e ∈ tr ∧ git_mv_of e = Some (Py.join category name).

(** The names that must count as current whatever [apt-cache] prints. *)
Definition allow_list : gset string :=
  {["raspberrypi-bootloader"; "libraspberrypi0"; "google-earth-stable"]}.

(** ** What the claims speak of *)

(** The text after the first colon of a line. *)
Fixpoint after_colon (line : string) : string :=
  match line with
  | EmptyString => EmptyString
  | String c r => if Ascii.eqb c ":" then r else after_colon r
  end.

(** The set that the description of the index file asks for: the trimmed
    text after the first colon, for every line that begins with the tag. *)
Definition stable_spec (text : string) : gset string :=
  list_to_set
    ((λ line, Py.strip (after_colon line))
       <$> filter (λ line, Py.startswith line "Package:" = true)
                  (Py.readlines text)).

(** What [testing] holds when [apt-cache pkgnames] prints [out]. *)
Definition testing_set (out : string) : gset string :=
  allow_list ∪ list_to_set (Py.rstrip <$> Py.readlines out).

(** What [glob] returns for a directory whose scan gives [names]. *)
Definition glob_names (d : string) (names : option (list string)) : list string :=
  match names with
  | Some names => Py.join d <$> filter (λ n, Py.startswith n "." = false) names
  | None => []
  end.

(** What [filters] holds when the scan of [rules] gives [names]. *)
Definition filters_set (names : option (list string)) : gset string :=
  list_to_set (Py.basename <$> glob_names "rules" names).

(** What [explain] holds when the scan of [explain] gives [names]. *)
Definition explain_set (names : option (list string)) : gset string :=
  list_to_set
    (Py.basename <$> filter (λ f, f = Py.lower f) (glob_names "explain" names)).

(** A name as a directory scan delivers it: without a slash. *)
Fixpoint no_slash (n : string) : bool :=
  match n with
  | EmptyString => true
  | String c r => negb (Ascii.eqb c "/") && no_slash r
  end.

(** An event that neither lists names nor moves a file. *)
Definition quiet (e : event) : Prop := report_of e = None ∧ git_mv_of e = None.

Section Observations.
Context {World : Type} {os : OS World} {order : SetOrder}.

(** An event of the archive step of one category: the destination is
    created, or [git mv] is started for a deprecated name. *)
Definition move_event (category archive : string) (D : gset string)
    (e : event) : Prop :=
  e = EMakedirs (destdir archive) ∨
  ∃ item status, item ∈ D ∧ e = git_mv category archive item status.

(** An event of [process] run on the local names [L] against [C] and [S]. *)
Definition run_event (STABLE category archive : string) (L C S : gset string)
    (e : event) : Prop :=
  e = header category ∨
  e = deprecated_report STABLE (Py.sorted (iter ((L ∖ C) ∩ S))) ∨
  e = unknown_report (Py.sorted (iter ((L ∖ C) ∖ S))) ∨
  move_event category archive ((L ∖ C) ∩ S) e.

(** The archive step meets no [OSError]: a directory that is not there can
    be created, and programs can be started.  Nothing is assumed of their
    exit status. *)
Definition can_archive : Prop :=
  (∀ (w : World) d, os_isdir w d = false → is_Some (os_makedirs w d)) ∧
  (∀ (w : World) argv cwd, is_Some (os_run w argv cwd)).

(** [wp m Q st]: the run of [m] from [st] ends with an outcome and in a
    state that satisfy [Q]. *)
Definition wp {A} (m : M A) (Q : outcome A → @state World → Prop)
    (st : state) : Prop :=
  Q (m st).1 (m st).2.

End Observations.

(** ** A small world to run the script in *)

(** The answers are fixed by four data: what [apt-cache pkgnames] prints,
    the cached index when there is one, the directories with their entries,
    and the exit status of every child process. *)
Record demo := Demo {
  demo_apt : string;
  demo_index : option string;
  demo_dirs : gmap string (list string);
  demo_status : Z
}.

#[global] Instance demo_os : OS demo := {|
  os_isfile w p :=
    bool_decide (p = "tools/Packages_amd64") && bool_decide (is_Some (demo_index w));
  os_isdir w p := bool_decide (is_Some (demo_dirs w !! p));
  os_listdir w d := demo_dirs w !! d;
  os_read w p :=
    if bool_decide (p = "tools/Packages_amd64") then demo_index w else None;
  os_unlink w p := Some w;
  os_makedirs w p :=
    if bool_decide (is_Some (demo_dirs w !! p)) then None
    else Some (Demo (demo_apt w) (demo_index w) (<[p := []]> (demo_dirs w))
                    (demo_status w));
  os_run w argv cwd := Some (w, demo_status w);
  os_popen w argv := Some (w, demo_apt w)
|}.

(** Sets enumerated in the order of [elements]. *)
Definition demo_order : SetOrder :=
  {| iter := elements; iter_perm := λ X, Permutation_refl (elements X) |}.

(** Sets enumerated in the reverse order. *)
Definition demo_reverse : SetOrder :=
  {| iter := λ X, reverse (elements X);
     iter_perm := λ X, reverse_Permutation (elements X) |}.

(** A world without directories where every child process fails. *)
Definition bare : demo := Demo "" None ∅ 128.

(** The store of the scenarios: the local names, [testing] and [stable]. *)
Definition store_abc : list (gset string) :=
  [{["a"; "b"; "c"]}; {["a"]}; {["b"]}].
Definition store_ab : list (gset string) := [{["a"; "b"]}; {["a"]}; ∅].

(** A world where [explain] and [rules] hold entries of both cases. *)
Definition cased : demo :=
  Demo "" None
       {["explain" := ["MyPkg"; "mypkg"]; "rules" := ["MyPkg"; "mypkg"]]} 128.

(** [testing] and [stable] for that world: both names are stable only. *)
Definition store_cased : list (gset string) := [∅; {["MyPkg"; "mypkg"]}].

Definition LF : string := String "010" "".

(** An index with two records, cached. *)
Definition index_text : string :=
  "Package: a" +:+ LF +:+ "Version: 1:2.0" +:+ LF +:+ LF
  +:+ "Package:  b " +:+ LF +:+ "Description: Package: c" +:+ LF.

(** A world where [apt-cache] does not know the boot loader that [rules]
    has a file for. *)
Definition raspbian : demo :=
  Demo ("a" +:+ LF) (Some index_text)
       {["rules" := ["raspberrypi-bootloader"; "b"; "c"]]} 128.

(** A store with three deprecated names and one unknown name. *)
Definition store_moves : list (gset string) :=
  [{["a"; "b"; "c"; "d"]}; ∅; {["a"; "b"; "c"]}].

(** A store with the inventories of both categories, [testing] and
    [stable]. *)
Definition store_two : list (gset string) :=
  [{["a"; "b"; "c"]}; {["a"; "b"; "d"]}; {["a"]}; {["b"]}].

(** ** More to state the behaviour of the whole script *)

Definition apt_cache : list string := ["apt-cache"; "pkgnames"].

Definition ben_download : list string :=
  ["ben"; "download"; "--archs"; "amd64"; "--suite"; "stable"].

(** The text of a stream that has the [lines], each ended by a line feed. *)
Definition unlines (lines : list string) : string :=
  foldr (λ l out, l +:+ LF +:+ out) "" lines.

(** A text without a line feed or a carriage return. *)
Fixpoint no_break (n : string) : bool :=
  match n with
  | EmptyString => true
  | String c r =>
      negb (Ascii.eqb c "010") && negb (Ascii.eqb c "013") && no_break r
  end.

Section FileSystems.
Context {World : Type} {os : OS World}.

(** A file system where a directory that was made is there, and where
    running a program removes no directory. *)
Definition keeps_directories : Prop :=
  (∀ (w : World) d w', os_makedirs w d = Some w' → os_isdir w' d = true) ∧
  (∀ (w : World) argv cwd w' status d,
     os_run w argv cwd = Some (w', status) →
     os_isdir w d = true → os_isdir w' d = true).

End FileSystems.

(** The small world on a file system that cannot be written: no directory
    can be made, no file removed. *)
Definition readonly_os : OS demo := {|
  os_isfile := @os_isfile demo demo_os;
  os_isdir := @os_isdir demo demo_os;
  os_listdir := @os_listdir demo demo_os;
  os_read := @os_read demo demo_os;
  os_unlink w p := None;
  os_makedirs w p := None;
  os_run := @os_run demo demo_os;
  os_popen := @os_popen demo demo_os
|}.

(** A world without a cached index where [ben] exits with status 1. *)
Definition offline : demo := Demo ("a" +:+ LF) None ∅ 1.

(** A world without a cached index where [ben] succeeds. *)
Definition online : demo := Demo ("a" +:+ LF) None ∅ 0.

(** A world where both directories have a hidden file beside the file of
    [b]. *)
Definition hidden : demo :=
  Demo "" (Some index_text)
       {["rules" := [".gitignore"; "b"]; "explain" := [".gitignore"; "b"]]} 0.

(** [testing] and [stable] for that world: both names are stable only. *)
Definition store_hidden : list (gset string) := [∅; {[".gitignore"; "b"]}].

(** A world where [apt-cache] prints two names. *)
Definition two_names : demo := Demo (unlines ["a"; "lib-b"]) None ∅ 0.

(** The small world where [apt-cache] cannot be started. *)
Definition no_apt_os : OS demo := {|
  os_isfile := @os_isfile demo demo_os;
  os_isdir := @os_isdir demo demo_os;
  os_listdir := @os_listdir demo demo_os;
  os_read := @os_read demo demo_os;
  os_unlink := @os_unlink demo demo_os;
  os_makedirs := @os_makedirs demo demo_os;
  os_run := @os_run demo demo_os;
  os_popen w argv := None
|}.

(** The small world where the cached index is there and cannot be read. *)
Definition unreadable_os : OS demo := {|
  os_isfile := @os_isfile demo demo_os;
  os_isdir := @os_isdir demo demo_os;
  os_listdir := @os_listdir demo demo_os;
  os_read w p := None;
  os_unlink := @os_unlink demo demo_os;
  os_makedirs := @os_makedirs demo demo_os;
  os_run := @os_run demo demo_os;
  os_popen := @os_popen demo demo_os
|}.

(** ** The archive step as the answers of the world decide it *)

Section ArchiveStep.
Context {World : Type} {os : OS World}.

(** Lines 50-52: the destination is there, or it is made.  The event, if
    any, and the world afterwards; no world when [os.makedirs] raises. *)
Definition ensure_destination (archive : string) (w : World)
    : list event * option World :=
  if os_isdir w (destdir archive) then ([], Some w)
  else ([EMakedirs (destdir archive)], os_makedirs w (destdir archive)).

(** The loop of lines 49-53 over [items], from the world [w]: its events,
    the world it ends in and how it ends.  Each turn takes the answers of
    the world it has reached.  A [git mv] that was started leads to the next
    item whatever its exit status; a destination that cannot be made and a
    [git] that cannot be started end the loop with [OSError]. *)
Inductive archive_step (category archive : string)
    : World → list string → list event → World → outcome unit → Prop :=
  | archive_end w :
      archive_step category archive w [] [] w (Ret tt)
  | archive_moved w item items pre w1 w2 status evs w' o :
      ensure_destination archive w = (pre, Some w1) →
      os_run w1 ["git"; "mv"; Py.join category item; destdir archive] None
      = Some (w2, status) →
      archive_step category archive w2 items evs w' o →
      archive_step category archive w (item :: items)
        (pre ++ git_mv category archive item (Some status) :: evs) w' o
  | archive_not_started w item items pre w1 :
      ensure_destination archive w = (pre, Some w1) →
      os_run w1 ["git"; "mv"; Py.join category item; destdir archive] None
      = None →
      archive_step category archive w (item :: items)
        (pre ++ [git_mv category archive item None]) w1 (Raise OSError)
  | archive_not_made w item items pre :
      ensure_destination archive w = (pre, None) →
      archive_step category archive w (item :: items) pre w (Raise OSError).

End ArchiveStep.

(** The small world where no program can be started. *)
Definition no_git_os : OS demo := {|
  os_isfile := @os_isfile demo demo_os;
  os_isdir := @os_isdir demo demo_os;
  os_listdir := @os_listdir demo demo_os;
  os_read := @os_read demo demo_os;
  os_unlink := @os_unlink demo demo_os;
  os_makedirs := @os_makedirs demo demo_os;
  os_run w argv cwd := None;
  os_popen := @os_popen demo demo_os
|}.

(** ** Tactics *)

(** Unfolds the primitive steps of a run. *)
Ltac run_prims :=
  cbv [mbind M_bind mret M_ret raise emit get_world set_world alloc set_new
       set_of_list popen_lines open_lines glob_star isfile isdir print
       makedirs unlink call check_call].

(** Finds an event in a trace given as its parts. *)
Ltac in_trace :=
  simpl; repeat first [rewrite elem_of_app | rewrite elem_of_cons];
  repeat first [by left | right].


(** ** Python strings: lemmas *)

Example lower_MyPkg : Py.lower "explain/MyPkg" = "explain/mypkg".
Proof. reflexivity. Qed.

Example strip_field :
  Py.strip (String "009" " foo bar " +:+ String "010" "") = "foo bar".
Proof. reflexivity. Qed.

Example split1_field : Py.split1 ":" "Package: a:b" = ["Package"; " a:b"].
Proof. reflexivity. Qed.

Example readlines_terminators :
  Py.readlines ("a" +:+ String "013" (String "010" "b") +:+ String "013" "c"
                +:+ String "010" "d")
  = [String "a" (String "010" ""); String "b" (String "010" "");
     String "c" (String "010" ""); "d"].
Proof. reflexivity. Qed.

Example basename_path : Py.basename "explain/MyPkg" = "MyPkg".
Proof. reflexivity. Qed.

Example join_archive : Py.join "archive" "explain" = "archive/explain".
Proof. reflexivity. Qed.

Example sorted_code_points :
  Py.sorted ["b"; "B"; "a"; "ab"] = ["B"; "a"; "ab"; "b"].
Proof. reflexivity. Qed.

Lemma prefix_app p s :
  String.prefix p s = true → ∃ r, s = p +:+ r.
Proof.
  revert s. induction p as [|c p IH]; intros s; simpl.
  - by exists s.
  - destruct s as [|c' s]; simpl; [done|].
    destruct (ascii_dec c c') as [->|]; [|done].
    intros [r ->]%IH. by exists r.
Qed.

Lemma startswith_app p r : Py.startswith (p +:+ r) p = true.
Proof.
  unfold Py.startswith. induction p as [|c p IH].
  - by destruct r.
  - change (String c p +:+ r) with (String c (p +:+ r)).
    cbn [String.prefix]. by destruct (ascii_dec c c).
Qed.

Lemma split1_package line :
  Py.startswith line "Package:" = true →
  Py.split1 ":" line !! 1%nat = Some (after_colon line).
Proof. unfold Py.startswith. intros [r ->]%prefix_app. reflexivity. Qed.


Lemma sorted_Permutation xs : Py.sorted xs ≡ₚ xs.
Proof. apply merge_sort_Permutation. Qed.


(** Paths *)

Lemma join_category d n :
  d = "rules" ∨ d = "explain" →
  Py.join d n = if Py.startswith n "/" then n else d +:+ "/" +:+ n.
Proof. intros [-> | ->]; unfold Py.join; by destruct (Py.startswith n "/"). Qed.

Lemma no_slash_startswith n : no_slash n = true → Py.startswith n "/" = false.
Proof.
  unfold Py.startswith. destruct n as [|c n]; [done|].
  intros [Hc _]%andb_prop. cbn [String.prefix].
  by destruct (ascii_dec "/" c) as [<-|].
Qed.

Lemma no_slash_after n : no_slash n = true → Py.after_last_slash n = None.
Proof.
  induction n as [|c n IH]; simpl; [done|].
  intros [Hc Hn]%andb_prop. rewrite IH by done.
  by destruct (Ascii.eqb c "/").
Qed.

Lemma after_last_slash_app p n :
  Py.after_last_slash n = None →
  Py.after_last_slash (p +:+ String "/" n) = Some n.
Proof.
  intros Hn. induction p as [|c p IH].
  - change (Py.after_last_slash (String "/" n) = Some n). simpl. by rewrite Hn.
  - change (Py.after_last_slash (String c (p +:+ String "/" n)) = Some n).
    simpl. by rewrite IH.
Qed.

Lemma basename_join d n :
  d = "rules" ∨ d = "explain" → no_slash n = true →
  Py.basename (Py.join d n) = n.
Proof.
  intros Hd Hn. rewrite join_category, no_slash_startswith by done.
  unfold Py.basename.
  change (d +:+ "/" +:+ n) with (d +:+ String "/" n).
  by rewrite after_last_slash_app by by apply no_slash_after.
Qed.

(** A path in lower case has its last component in lower case. *)
Lemma lower_after_last_slash f b :
  f = Py.lower f → Py.after_last_slash f = Some b → b = Py.lower b.
Proof.
  revert b. induction f as [|c f IH]; intros b; simpl; [done|].
  intros [= Hc Hf].
  destruct (Py.after_last_slash f) as [b'|]; [intros [= <-]; by apply IH|].
  destruct (Ascii.eqb c "/"); [|done]. by intros [= <-].
Qed.

Lemma lower_basename f : f = Py.lower f → Py.basename f = Py.lower (Py.basename f).
Proof.
  intros Hf. unfold Py.basename.
  destruct (Py.after_last_slash f) as [b|] eqn:Hb; simpl; [|done].
  by eapply lower_after_last_slash.
Qed.

Lemma lower_app p q : Py.lower (p +:+ q) = Py.lower p +:+ Py.lower q.
Proof.
  induction p as [|c p IH]; [done|].
  change (String (Py.lower_char c) (Py.lower (p +:+ q))
          = String (Py.lower_char c) (Py.lower p +:+ Py.lower q)).
  by rewrite IH.
Qed.

Lemma lower_join_explain n :
  no_slash n = true →
  Py.join "explain" n = Py.lower (Py.join "explain" n) ↔ n = Py.lower n.
Proof.
  intros Hn. rewrite join_category, no_slash_startswith by auto.
  rewrite lower_app. change (Py.lower "explain") with "explain".
  change ("/" +:+ n) with (String "/" n).
  change (Py.lower (String "/" n)) with (String "/" (Py.lower n)).
  split; [|by intros <-].
  intros Heq. apply (inj (String.app "explain")) in Heq. by injection Heq.
Qed.
(** ** The rules of the logic *)

Section Logic.
Context {World : Type} {os : OS World} {order : SetOrder}.
Implicit Types st : @state World.

Lemma wp_run {A} (m : M A) Q st o st' :
  m st = (o, st') → Q o st' → wp m Q st.
Proof. unfold wp. by intros ->. Qed.

Lemma wp_ret {A} (a : A) (Q : outcome A → state → Prop) st :
  Q (Ret a) st → wp (mret a) Q st.
Proof. done. Qed.

Lemma wp_raise {A} e (Q : outcome A → state → Prop) st :
  Q (Raise e) st → wp (raise e) Q st.
Proof. done. Qed.

Lemma wp_bind {A B} (m : M A) (k : A → M B) Q st :
  wp m (λ o st', match o with
                 | Ret a => wp (k a) Q st'
                 | Raise e => Q (Raise e) st'
                 end) st →
  wp (m ≫= k) Q st.
Proof.
  unfold wp, mbind, M_bind. by destruct (m st) as [[a|e] st'].
Qed.

Lemma wp_mono {A} (m : M A) (Q Q' : outcome A → state → Prop) st :
  wp m Q st → (∀ o st', Q o st' → Q' o st') → wp m Q' st.
Proof. unfold wp. auto. Qed.

Lemma wp_emit e (Q : outcome unit → state → Prop) st :
  Q (Ret tt) (State (heap st) (world st) (trace st ++ [e])) → wp (emit e) Q st.
Proof. done. Qed.

Lemma wp_get_world (Q : outcome World → state → Prop) st :
  Q (Ret (world st)) st → wp get_world Q st.
Proof. done. Qed.

Lemma wp_set_world w (Q : outcome unit → state → Prop) st :
  Q (Ret tt) (State (heap st) w (trace st)) → wp (set_world w) Q st.
Proof. done. Qed.

Lemma wp_alloc X (Q : outcome loc → state → Prop) st :
  Q (Ret (length (heap st))) (State (heap st ++ [X]) (world st) (trace st)) →
  wp (alloc X) Q st.
Proof. done. Qed.

Lemma wp_deref l X (Q : outcome (gset string) → state → Prop) st :
  heap st !! l = Some X → Q (Ret X) st → wp (deref l) Q st.
Proof. unfold wp, deref. by intros ->. Qed.

Lemma wp_assign l X (Q : outcome unit → state → Prop) st :
  Q (Ret tt) (State (<[l := X]> (heap st)) (world st) (trace st)) →
  wp (assign l X) Q st.
Proof. done. Qed.

(** The rule of the [for] loop: [I done] holds when the items [done] have
    been processed; an exception in the body leaves the loop. *)
Lemma wp_for_each {A} (I : list A → state → Prop) (xs : list A)
    (body : A → M unit) Q st :
  I [] st →
  (∀ done x rest st', xs = done ++ x :: rest → I done st' →
     wp (body x) (λ o st'', match o with
                            | Ret _ => I (done ++ [x]) st''
                            | Raise e => Q (Raise e) st''
                            end) st') →
  (∀ st', I xs st' → Q (Ret tt) st') →
  wp (for_each xs body) Q st.
Proof.
  intros Hinit Hbody Hexit.
  cut (∀ rest done st', xs = done ++ rest → I done st' →
         wp (for_each rest body) Q st').
  { intros Hgen. by apply (Hgen xs [] st). }
  induction rest as [|x rest IH]; intros done st' Hxs Hdone; simpl.
  - apply wp_ret, Hexit. by rewrite Hxs, app_nil_r.
  - apply wp_bind. eapply wp_mono; [by eapply Hbody|].
    intros [[]|e] st'' Hpost; [|done].
    apply (IH (done ++ [x])); [|done]. by rewrite <-app_assoc.
Qed.

End Logic.

(** ** The run of [process] *)

Section ProcessRun.
Context {World : Type} {os : OS World} {order : SetOrder}.
Variable STABLE : string.
Implicit Types (st : @state World) (X Y L C S D U : gset string).

Lemma wp_set_sub a b X Y (Q : outcome loc → state → Prop) st :
  heap st !! a = Some X → heap st !! b = Some Y →
  Q (Ret (length (heap st)))
    (State (heap st ++ [X ∖ Y]) (world st) (trace st)) →
  wp (set_sub a b) Q st.
Proof.
  intros Ha Hb HQ. unfold set_sub.
  apply wp_bind, (wp_deref _ X); [done|].
  apply wp_bind, (wp_deref _ Y); [done|]. by apply wp_alloc.
Qed.

Lemma wp_set_and a b X Y (Q : outcome loc → state → Prop) st :
  heap st !! a = Some X → heap st !! b = Some Y →
  Q (Ret (length (heap st)))
    (State (heap st ++ [X ∩ Y]) (world st) (trace st)) →
  wp (set_and a b) Q st.
Proof.
  intros Ha Hb HQ. unfold set_and.
  apply wp_bind, (wp_deref _ X); [done|].
  apply wp_bind, (wp_deref _ Y); [done|]. by apply wp_alloc.
Qed.

Lemma wp_set_iter a X (Q : outcome (list string) → state → Prop) st :
  heap st !! a = Some X → Q (Ret (iter X)) st → wp (set_iter a) Q st.
Proof.
  intros Ha HQ. unfold set_iter.
  apply wp_bind, (wp_deref _ X); [done|]. by apply wp_ret.
Qed.

Lemma wp_sorted a X (Q : outcome (list string) → state → Prop) st :
  heap st !! a = Some X → Q (Ret (Py.sorted (iter X))) st → wp (sorted a) Q st.
Proof.
  intros Ha HQ. unfold sorted.
  apply wp_bind, (wp_set_iter _ X); [done|]. by apply wp_ret.
Qed.

Lemma wp_set_add a x X (Q : outcome unit → state → Prop) st :
  heap st !! a = Some X →
  Q (Ret tt) (State (<[a := {[x]} ∪ X]> (heap st)) (world st) (trace st)) →
  wp (set_add a x) Q st.
Proof.
  intros Ha HQ. unfold set_add.
  apply wp_bind, (wp_deref _ X); [done|]. by apply wp_assign.
Qed.

(** One turn of the loop of [process]: it may create the destination, then
    it starts [git mv]; the exit status of [git] is not looked at. *)
Lemma wp_process_item category archive item
    (Q : outcome unit → state → Prop) st :
  (∀ w' pre status,
     pre = [] ∨ pre = [EMakedirs (destdir archive)] →
     Q (Ret tt) (State (heap st) w'
          (trace st ++ pre ++ [git_mv category archive item (Some status)]))) →
  (∀ w' pre,
     pre = [] ∨ pre = [EMakedirs (destdir archive)] →
     (∃ w a c, os_run w a c = None) →
     Q (Raise OSError) (State (heap st) w'
          (trace st ++ pre ++ [git_mv category archive item None]))) →
  ((∃ w d, os_isdir w d = false ∧ os_makedirs w d = None) →
   Q (Raise OSError) (State (heap st) (world st)
        (trace st ++ [EMakedirs (destdir archive)]))) →
  wp (process_item category archive item) Q st.
Proof.
  intros Hok Hspawn Hmkdir. unfold process_item, wp, mbind, M_bind, isdir,
    makedirs, call, mbind, M_bind; simpl.
  fold (destdir archive).
  destruct (os_isdir (world st) (destdir archive)) eqn:Hdir; simpl.
  - destruct (os_run (world st) _ None) as [[w' status]|] eqn:Hrun; simpl.
    + specialize (Hok w' [] status (or_introl eq_refl)). by rewrite app_nil_l in Hok.
    + specialize (Hspawn (world st) [] (or_introl eq_refl)).
      rewrite app_nil_l in Hspawn. apply Hspawn. eauto.
  - destruct (os_makedirs (world st) (destdir archive)) as [w1|] eqn:Hmk; simpl.
    + destruct (os_run w1 _ None) as [[w' status]|] eqn:Hrun; simpl.
      * specialize (Hok w' _ status (or_intror eq_refl)).
        by rewrite <-app_assoc.
      * specialize (Hspawn w1 _ (or_intror eq_refl)).
        rewrite <-app_assoc. apply Hspawn. eauto.
    + apply Hmkdir. eauto.
Qed.


Lemma git_mv_of_git_mv category archive item status :
  git_mv_of (git_mv category archive item status) = Some (Py.join category item).
Proof. done. Qed.

Lemma omap_git_mv_attempt category archive item status pre :
  pre = [] ∨ pre = [EMakedirs (destdir archive)] →
  omap git_mv_of (pre ++ [git_mv category archive item status])
  = [Py.join category item].
Proof. by intros [-> | ->]. Qed.

Lemma Forall_move_attempt category archive D item status pre :
  item ∈ D → pre = [] ∨ pre = [EMakedirs (destdir archive)] →
  Forall (move_event category archive D)
         (pre ++ [git_mv category archive item status]).
Proof.
  intros Hin Hpre. apply Forall_app. split.
  - destruct Hpre as [-> | ->]; [done|]. apply Forall_singleton. by left.
  - apply Forall_singleton. right. eauto.
Qed.

(** The run of [process]: the three new sets, the two lines, the events of
    the archive step for the items reached, and the last line when no
    exception ended the loop. *)
Lemma process_run category packages testing stable archive st L C S :
  heap st !! packages = Some L →
  heap st !! testing = Some C →
  heap st !! stable = Some S →
  let D := (L ∖ C) ∩ S in
  let U := (L ∖ C) ∖ S in
  ∃ o w' moves done,
    process STABLE category packages testing stable archive st
    = (o, State (heap st ++ [L ∖ C; D; U]) w'
            (trace st
             ++ [header category; deprecated_report STABLE (Py.sorted (iter D))]
             ++ moves
             ++ match o with
                | Ret _ => [unknown_report (Py.sorted (iter U))]
                | Raise _ => []
                end)) ∧
    (o = Ret tt ∨ o = Raise OSError) ∧
    Forall (move_event category archive D) moves ∧
    omap git_mv_of moves = Py.join category <$> done ∧
    done `prefix_of` iter D ∧
    (o = Ret tt → done = iter D) ∧
    (can_archive → o = Ret tt) ∧
    (iter D = [] → o = Ret tt ∧ moves = [] ∧ w' = world st).
Proof.
  intros Hp Ht Hs D U.
  set (H1 := heap st ++ [L ∖ C]). set (H2 := H1 ++ [D]). set (H3 := H2 ++ [U]).
  set (T0 := trace st ++ [header category;
                          deprecated_report STABLE (Py.sorted (iter D))]).
  set (Post := λ (o : outcome unit) (st' : @state World),
    ∃ moves done,
      st' = State H3 (world st') (T0 ++ moves ++
              match o with
              | Ret _ => [unknown_report (Py.sorted (iter U))]
              | Raise _ => []
              end) ∧
      (o = Ret tt ∨ o = Raise OSError) ∧
      Forall (move_event category archive D) moves ∧
      omap git_mv_of moves = Py.join category <$> done ∧
      done `prefix_of` iter D ∧
      (o = Ret tt → done = iter D) ∧
      (can_archive → o = Ret tt) ∧
      (iter D = [] → o = Ret tt ∧ moves = [] ∧ world st' = world st)).
  assert (wp (process STABLE category packages testing stable archive) Post st)
    as Hwp.
  { unfold process.
    apply wp_bind, (wp_set_sub _ _ L C); [done..|]. fold H1.
    apply wp_bind, (wp_set_and _ _ (L ∖ C) S); simpl.
    { unfold H1. by rewrite lookup_app_r, Nat.sub_diag by done. }
    { unfold H1. by rewrite lookup_app_l by (by eapply lookup_lt_Some). }
    fold D. fold H2.
    apply wp_bind, (wp_set_sub _ _ (L ∖ C) S); simpl.
    { unfold H2, H1. rewrite lookup_app_l by (rewrite length_app; simpl; lia).
      by rewrite lookup_app_r, Nat.sub_diag by done. }
    { unfold H2, H1. rewrite <-app_assoc.
      by rewrite lookup_app_l by (by eapply lookup_lt_Some). }
    fold U. fold H3.
    assert (H3 !! length H1 = Some D) as HD.
    { unfold H3, H2. rewrite lookup_app_l by (rewrite length_app; simpl; lia).
      by rewrite lookup_app_r, Nat.sub_diag by done. }
    assert (H3 !! length H2 = Some U) as HU.
    { unfold H3. by rewrite lookup_app_r, Nat.sub_diag by done. }
    apply wp_bind, wp_emit; simpl.
    apply wp_bind, (wp_sorted _ D); [done|].
    apply wp_bind, wp_emit; simpl.
    apply wp_bind, (wp_set_iter _ D); [done|].
    rewrite <-app_assoc; simpl. fold (header category).
    fold (deprecated_report STABLE (Py.sorted (iter D))). fold T0.
    apply wp_bind.
    apply (wp_for_each (λ done st',
      ∃ moves, st' = State H3 (world st') (T0 ++ moves) ∧
        Forall (move_event category archive D) moves ∧
        omap git_mv_of moves = Py.join category <$> done ∧
        (done = [] → moves = [] ∧ world st' = world st))).
    - exists []. by rewrite app_nil_r.
    - intros done x rest st' Hxs (moves & -> & Hall & Hmv & _).
      assert (iter D ≠ []) as Hne by (rewrite Hxs; by destruct done).
      assert (x ∈ D) as HxD.
      { apply elem_of_elements. rewrite <-iter_perm, Hxs. set_solver. }
      apply wp_process_item; simpl.
      + intros w' pre status Hpre. exists (moves ++ pre ++ [git_mv category archive x (Some status)]).
        rewrite <-app_assoc. split; [done|]. split; [|split].
        * apply Forall_app. eauto using Forall_move_attempt.
        * rewrite omap_app, fmap_app, Hmv. f_equal.
          by apply omap_git_mv_attempt.
        * by destruct done.
      + intros w' pre Hpre Hno.
        exists (moves ++ pre ++ [git_mv category archive x None]), (done ++ [x]).
        rewrite app_nil_r, <-app_assoc. split; [done|]. split; [by right|].
        split; [apply Forall_app; eauto using Forall_move_attempt|].
        split.
        { rewrite omap_app, fmap_app, Hmv. f_equal.
          by apply omap_git_mv_attempt. }
        split; [|split; [done|split; [|done]]].
        { exists rest. by rewrite Hxs, <-app_assoc. }
        intros [_ Hrun]. destruct Hno as (w & a & c & Hno).
        specialize (Hrun w a c). rewrite Hno in Hrun. by destruct Hrun.
      + intros Hno.
        exists (moves ++ [EMakedirs (destdir archive)]), done.
        rewrite app_nil_r, <-app_assoc. split; [done|]. split; [by right|].
        split.
        { apply Forall_app. split; [done|]. apply Forall_singleton. by left. }
        split; [by rewrite omap_app, Hmv, app_nil_r|].
        split; [|split; [done|split; [|done]]].
        { exists (x :: rest). by rewrite Hxs. }
        intros [Hmk _]. destruct Hno as (w & d & Hdir & Hno).
        specialize (Hmk w d Hdir). rewrite Hno in Hmk. by destruct Hmk.
    - intros st' (moves & -> & Hall & Hmv & Hnil); simpl.
      apply wp_bind, (wp_sorted _ U); [done|]. apply wp_emit; simpl.
      exists moves, (iter D). rewrite <-app_assoc.
      split; [done|]. split; [by left|]. split; [done|]. split; [done|].
      split; [done|]. split; [done|]. split; [done|].
      intros Hempty. split; [done|]. by apply Hnil. }
  unfold wp, Post in Hwp.
  destruct (process STABLE category packages testing stable archive st)
    as [o st'] eqn:Hrun; simpl in Hwp.
  destruct Hwp as (moves & done & -> & Hrest).
  exists o, (world st'), moves, done. split; [|done].
  unfold T0, H3, H2, H1. by rewrite <-!app_assoc.
Qed.

End ProcessRun.

(** ** The runs of the blocks that build the sets *)

Section Blocks.
Context {World : Type} {os : OS World} {order : SetOrder}.

Implicit Types (st : @state World) (X Y L C S D U : gset string).

Lemma state_eta st : State (heap st) (world st) (trace st) = st.
Proof. by destruct st. Qed.

Lemma bind_run {A B} (m : M A) (k : A → M B) st :
  (m ≫= k) st = match m st with
                | (Ret a, st') => k a st'
                | (Raise e, st') => (Raise e, st')
                end.
Proof. done. Qed.

Lemma set_add_run a x X st :
  heap st !! a = Some X →
  set_add a x st
  = (Ret tt, State (<[a := {[x]} ∪ X]> (heap st)) (world st) (trace st)).
Proof. intros Ha. unfold set_add. rewrite bind_run. unfold deref. by rewrite Ha. Qed.

(** A loop that adds [f x] for every [x] of [xs] that [keep]s. *)
Lemma for_each_set_add (keep : string → bool) (f : string → string)
    (body : string → M unit) a xs X st :
  (∀ x st' X', heap st' !! a = Some X' →
     body x st' = if keep x then set_add a (f x) st' else (Ret tt, st')) →
  heap st !! a = Some X →
  for_each xs body st
  = (Ret tt, State (<[a := list_to_set (f <$> filter (λ x, keep x = true) xs) ∪ X]> (heap st))
               (world st) (trace st)).
Proof.
  intros Hbody. revert X st.
  induction xs as [|x xs IH]; intros X st Ha; simpl.
  - rewrite (left_id_L ∅ (∪)).
    by rewrite list_insert_id, state_eta.
  - rewrite bind_run, (Hbody _ _ X) by done.
    destruct (keep x) eqn:Hk.
    + rewrite (set_add_run _ _ X) by done.
      rewrite (IH ({[f x]} ∪ X)); simpl.
      * rewrite list_insert_insert_eq, filter_cons_True by done.
        simpl. do 3 f_equal.
        by rewrite (assoc_L (∪)), (comm_L (∪) _ {[f x]}).
      * apply list_lookup_insert_eq. by eapply lookup_lt_Some.
    + rewrite (IH X) by done. rewrite filter_cons_False; [done|].
      by rewrite Hk.
Qed.


Lemma filter_all {A} (xs : list A) :
  filter (λ _, true = true) xs = xs.
Proof.
  induction xs as [|x xs IH]; [done|]. by rewrite filter_cons_True, IH.
Qed.

Lemma testing_run st :
  testing st
  = match os_popen (world st) ["apt-cache"; "pkgnames"] with
    | Some (w', out) =>
        (Ret (length (heap st)),
         State (heap st ++ [testing_set out]) w'
               (trace st ++ [EPopen ["apt-cache"; "pkgnames"]]))
    | None =>
        (Raise OSError,
         State (heap st ++ [∅]) (world st)
               (trace st ++ [EPopen ["apt-cache"; "pkgnames"]]))
    end.
Proof.
  unfold testing. run_prims; simpl.
  destruct (os_popen (world st) _) as [[w' out]|]; simpl; [|done].
  set (st1 := State (heap st ++ [∅]) w' _).
  assert (heap st1 !! length (heap st) = Some ∅) as Hl.
  { simpl. by rewrite lookup_app_r, Nat.sub_diag by done. }
  rewrite (for_each_set_add (λ _, true) Py.rstrip _ _ _ ∅ st1 (λ _ _ _ _, eq_refl) Hl).
  erewrite set_add_run by (simpl; apply list_lookup_insert_eq;
                          rewrite length_app; simpl; lia).
  erewrite set_add_run by (simpl; apply list_lookup_insert_eq;
                          rewrite length_insert, length_app; simpl; lia).
  erewrite set_add_run by (simpl; apply list_lookup_insert_eq;
                          rewrite !length_insert, length_app; simpl; lia).
  simpl. rewrite !list_insert_insert_eq.
  rewrite insert_app_r_alt, Nat.sub_diag by done; simpl.
  do 4 f_equal. unfold testing_set, allow_list.
  rewrite filter_all.
  apply set_eq. intros x. rewrite !elem_of_union, !elem_of_singleton,
    elem_of_empty. tauto.
Qed.

Lemma stable_run st :
  stable st
  = match os_read (world st) "tools/Packages_amd64" with
    | Some text =>
        (Ret (length (heap st)),
         State (heap st ++ [stable_spec text]) (world st) (trace st))
    | None => (Raise OSError, State (heap st ++ [∅]) (world st) (trace st))
    end.
Proof.
  unfold stable. run_prims; simpl.
  destruct (os_read (world st) _) as [text|]; simpl; [|done].
  set (st1 := State (heap st ++ [∅]) _ _).
  assert (heap st1 !! length (heap st) = Some ∅) as Hl.
  { simpl. by rewrite lookup_app_r, Nat.sub_diag by done. }
  rewrite (for_each_set_add (λ line, Py.startswith line "Package:")
             (λ line, Py.strip (after_colon line)) _ (length (heap st)) _ ∅ st1);
    [| |done].
  - simpl. rewrite insert_app_r_alt, Nat.sub_diag by done; simpl.
    unfold stable_spec. by rewrite (right_id_L ∅ (∪)).
  - intros line st' X' _.
    destruct (Py.startswith line "Package:") eqn:Hp; [|done].
    by rewrite split1_package.
Qed.

Lemma filters_run st :
  filters st
  = (Ret (length (heap st)),
     State (heap st ++ [filters_set (os_listdir (world st) "rules")])
           (world st) (trace st)).
Proof. done. Qed.

Lemma explain_run st :
  explain st
  = (Ret (length (heap st)),
     State (heap st ++ [explain_set (os_listdir (world st) "explain")])
           (world st) (trace st)).
Proof. done. Qed.

End Blocks.
(** ** The sets of the inventory, the lists of the reports *)

Section Sets.
Context {order : SetOrder}.
Implicit Types (X : gset string).

Lemma sorted_iter_elem X n : n ∈ Py.sorted (iter X) ↔ n ∈ X.
Proof. rewrite sorted_Permutation, iter_perm. apply elem_of_elements. Qed.



End Sets.

Lemma explain_set_lower names n : n ∈ explain_set names → n = Py.lower n.
Proof.
  unfold explain_set. rewrite elem_of_list_to_set, list_elem_of_fmap.
  intros (f & -> & [Hf _]%list_elem_of_filter). by apply lower_basename.
Qed.

Lemma filters_set_entries l n :
  Forall (λ m, no_slash m = true) l →
  n ∈ filters_set (Some l) ↔ n ∈ l ∧ Py.startswith n "." = false.
Proof.
  intros Hl. unfold filters_set, glob_names.
  rewrite elem_of_list_to_set, list_elem_of_fmap. split.
  - intros (f & -> & (m & -> & [Hdot Hm]%list_elem_of_filter)%list_elem_of_fmap).
    rewrite Forall_forall in Hl. rewrite basename_join by auto. done.
  - intros [Hn Hdot]. exists (Py.join "rules" n). split.
    + rewrite Forall_forall in Hl. rewrite basename_join by auto. done.
    + apply list_elem_of_fmap. exists n. by rewrite list_elem_of_filter.
Qed.

Lemma explain_set_entries l n :
  Forall (λ m, no_slash m = true) l →
  n ∈ explain_set (Some l)
  ↔ n ∈ l ∧ Py.startswith n "." = false ∧ n = Py.lower n.
Proof.
  intros Hl. rewrite Forall_forall in Hl. unfold explain_set, glob_names.
  rewrite elem_of_list_to_set, list_elem_of_fmap. split.
  - intros (f & -> & [Hlow (m & -> & [Hdot Hm]%list_elem_of_filter)%list_elem_of_fmap]%list_elem_of_filter).
    rewrite basename_join by auto.
    apply (proj1 (lower_join_explain m (Hl m Hm))) in Hlow. by repeat split.
  - intros (Hn & Hdot & Hlow). exists (Py.join "explain" n). split.
    + rewrite basename_join by auto. done.
    + apply list_elem_of_filter.
      split; [by apply (proj2 (lower_join_explain n (Hl n Hn)))|].
      apply list_elem_of_fmap. exists n. by rewrite list_elem_of_filter.
Qed.

(** ** Which names a run can list or move *)

Lemma join_category_inj d1 d2 a b :
  d1 = "rules" ∨ d1 = "explain" → d2 = "rules" ∨ d2 = "explain" →
  Py.startswith b "/" = false →
  Py.join d1 a = Py.join d2 b → d1 = d2 ∧ a = b.
Proof.
  intros Hd1 Hd2 Hb. rewrite !join_category, Hb by done.
  destruct (Py.startswith a "/") eqn:Ha.
  - intros ->. destruct Hd2 as [-> | ->]; discriminate Ha.
  - destruct Hd1 as [-> | ->], Hd2 as [-> | ->]; intros Heq;
      try discriminate Heq.
    + split; [done|]. apply (inj (String.app "rules/")) in Heq. done.
    + split; [done|]. apply (inj (String.app "explain/")) in Heq. done.
Qed.

Lemma join_inj d a b :
  d = "rules" ∨ d = "explain" → Py.join d a = Py.join d b → a = b.
Proof.
  intros Hd. destruct (Py.startswith b "/") eqn:Hb.
  - rewrite !join_category, Hb by done.
    destruct (Py.startswith a "/") eqn:Ha; [done|].
    intros <-. destruct Hd as [-> | ->]; discriminate Hb.
  - intros Heq. by eapply join_category_inj.
Qed.

Lemma allow_list_names n :
  n ∈ allow_list →
  n = "raspberrypi-bootloader" ∨ n = "libraspberrypi0"
  ∨ n = "google-earth-stable".
Proof.
  unfold allow_list. rewrite !elem_of_union, !elem_of_singleton. tauto.
Qed.

Lemma allow_list_relative n : n ∈ allow_list → Py.startswith n "/" = false.
Proof. by intros [-> | [-> | ->]]%allow_list_names. Qed.

Section Names.
Context {World : Type} {os : OS World} {order : SetOrder}.
Variable STABLE : string.
Implicit Types (st : @state World) (X Y L C S D U : gset string).

Lemma iter_empty : iter ∅ = [].
Proof. apply Permutation_nil_r. by rewrite iter_perm, elements_empty. Qed.

Lemma iter_singleton x : iter {[x]} = [x].
Proof. apply Permutation_singleton_r. by rewrite iter_perm, elements_singleton. Qed.

Lemma quiet_not_reported e xs : quiet e → report_of e ≠ Some xs.
Proof. intros [-> _]. done. Qed.

(** A name listed by an event of [process] is deprecated or unknown. *)
Lemma run_event_report category archive L C S e xs n :
  run_event STABLE category archive L C S e →
  report_of e = Some xs → n ∈ xs →
  n ∈ (L ∖ C) ∩ S ∨ n ∈ (L ∖ C) ∖ S.
Proof.
  intros [-> | [-> | [-> | [-> | (item & status & _ & ->)]]]]; simpl;
    try done.
  - intros [= <-] Hn. left. by apply sorted_iter_elem.
  - intros [= <-] Hn. right. by apply sorted_iter_elem.
Qed.

(** A file moved by an event of [process] belongs to a deprecated name. *)
Lemma run_event_git_mv category archive L C S e d n :
  category = "rules" ∨ category = "explain" →
  d = "rules" ∨ d = "explain" →
  (d = category ∨ Py.startswith n "/" = false) →
  run_event STABLE category archive L C S e →
  git_mv_of e = Some (Py.join d n) →
  d = category ∧ n ∈ (L ∖ C) ∩ S.
Proof.
  intros Hcat Hd Hn
    [-> | [-> | [-> | [-> | (item & status & Hitem & ->)]]]]; simpl;
    try done.
  intros [= Heq]. destruct Hn as [-> | Hn].
  - apply join_inj in Heq as ->; done.
  - by apply join_category_inj in Heq as [-> ->].
Qed.

End Names.
(** ** The run of the whole script *)

Section MainRun.
Context {World : Type} {os : OS World} {order : SetOrder}.
Variable STABLE : string.
Implicit Types (st : @state World) (X Y L C S D U : gset string).

Lemma lookup_snoc {A} (h : list A) x : (h ++ [x]) !! length h = Some x.
Proof. by rewrite lookup_app_r, Nat.sub_diag. Qed.

Lemma lookup_snoc_Some {A} (h : list A) x i y :
  h !! i = Some y → (h ++ [x]) !! i = Some y.
Proof. intros Hi. by rewrite lookup_app_l by by eapply lookup_lt_Some. Qed.

(** [download] leaves the store as it is, lists no name and moves no
    file. *)
Lemma download_run st :
  ∃ o w' evs,
    download st = (o, State (heap st) w' (trace st ++ evs)) ∧
    Forall quiet evs.
Proof.
  unfold download. run_prims; simpl.
  destruct (os_isfile (world st) _); simpl.
  { exists (Ret tt), (world st), []. by rewrite app_nil_r, state_eta. }
  destruct (os_run (world st) _ _) as [[w1 status]|]; simpl.
  - destruct (bool_decide (status = 0)); simpl.
    + destruct (os_unlink w1 _) as [w2|]; simpl.
      * eexists _, _, [_; _]. rewrite <-app_assoc. split; [done|].
        repeat constructor.
      * eexists _, _, [_; _]. rewrite <-app_assoc. split; [done|].
        repeat constructor.
    + eexists _, _, [_]. split; [done|]. repeat constructor.
  - eexists _, _, [_]. split; [done|]. repeat constructor.
Qed.

(** The events of a call of [process] are of its four kinds. *)
Lemma run_events category archive L C S moves (o : outcome unit) :
  Forall (move_event category archive ((L ∖ C) ∩ S)) moves →
  Forall (run_event STABLE category archive L C S)
    ([header category;
      deprecated_report STABLE (Py.sorted (iter ((L ∖ C) ∩ S)))]
     ++ moves
     ++ match o with
        | Ret _ => [unknown_report (Py.sorted (iter ((L ∖ C) ∖ S)))]
        | Raise _ => []
        end).
Proof.
  intros Hmoves.
  apply Forall_cons. split; [by left|].
  apply Forall_cons. split; [by right; left|].
  apply Forall_app. split.
  - eapply Forall_impl; [exact Hmoves|]. intros e He. by do 3 right.
  - destruct o; [|done]. apply Forall_singleton. by right; right; left.
Qed.

Lemma process_events category packages testing stable archive st L C S :
  heap st !! packages = Some L →
  heap st !! testing = Some C →
  heap st !! stable = Some S →
  ∃ o st' evs,
    process STABLE category packages testing stable archive st = (o, st') ∧
    heap st' = heap st ++ [L ∖ C; (L ∖ C) ∩ S; (L ∖ C) ∖ S] ∧
    trace st' = trace st ++ evs ∧
    Forall (run_event STABLE category archive L C S) evs.
Proof.
  intros Hp Ht Hs.
  destruct (process_run STABLE category _ _ _ archive st L C S Hp Ht Hs)
    as (o & w' & moves & done & Hrun & _ & Hmoves & _).
  eexists o, _, _. split; [exact Hrun|]. split; [done|]. split; [done|].
  by apply run_events.
Qed.

(** The names that a call of [process] lists and moves: those of the
    deprecated and of the unknown set, and no other. *)
Lemma process_names category packages testing stable archive st L C S :
  category = "rules" ∨ category = "explain" →
  heap st !! packages = Some L →
  heap st !! testing = Some C →
  heap st !! stable = Some S →
  ∃ o st' evs,
    process STABLE category packages testing stable archive st = (o, st') ∧
    heap st' = heap st ++ [L ∖ C; (L ∖ C) ∩ S; (L ∖ C) ∖ S] ∧
    trace st' = trace st ++ evs ∧
    (∀ n, reported n evs → n ∈ (L ∖ C) ∩ S ∨ n ∈ (L ∖ C) ∖ S) ∧
    (∀ n, archived category n evs → n ∈ (L ∖ C) ∩ S) ∧
    (∀ n, n ∈ (L ∖ C) ∩ S → reported n evs) ∧
    (o = Ret tt → ∀ n, n ∈ (L ∖ C) ∖ S → reported n evs) ∧
    (o = Ret tt → ∀ n, n ∈ (L ∖ C) ∩ S → archived category n evs).
Proof.
  intros Hcat Hp Ht Hs.
  destruct (process_run STABLE category _ _ _ archive st L C S Hp Ht Hs)
    as (o & w' & moves & done & Hrun & _ & Hmoves & Hmv & _ & Hdone & _).
  pose proof (run_events category archive L C S moves o Hmoves) as Hevs.
  rewrite Forall_forall in Hevs.
  eexists o, _, _. split; [exact Hrun|]. split; [done|]. split; [done|].
  split; [|split; [|split; [|split]]].
  - intros n (e & xs & He & Hxs & Hn).
    eapply run_event_report; [by apply Hevs|done..].
  - intros n (e & He & Hsrc).
    eapply (run_event_git_mv STABLE category archive L C S e category n); auto.
  - intros n Hn.
    exists (deprecated_report STABLE (Py.sorted (iter ((L ∖ C) ∩ S)))),
      (Py.sorted (iter ((L ∖ C) ∩ S))).
    split; [|split; [reflexivity|]].
    + apply elem_of_cons. right. apply elem_of_cons. by left.
    + by apply sorted_iter_elem.
  - intros -> n Hn.
    exists (unknown_report (Py.sorted (iter ((L ∖ C) ∖ S)))),
      (Py.sorted (iter ((L ∖ C) ∖ S))).
    split; [|split; [reflexivity|]].
    + do 2 (apply elem_of_cons; right). apply elem_of_app. right.
      apply elem_of_cons. by left.
    + by apply sorted_iter_elem.
  - intros -> n Hn.
    assert (Py.join category n ∈ omap git_mv_of moves) as Hin.
    { rewrite Hmv, Hdone by done. apply list_elem_of_fmap. exists n.
      split; [done|]. rewrite iter_perm. by apply elem_of_elements. }
    apply list_elem_of_omap in Hin as (e & He & Hsrc).
    exists e. split; [|done].
    do 2 (apply elem_of_cons; right). apply elem_of_app. by left.
Qed.

(** Lines 56-58: the two calls of [process] and the empty line between. *)
Lemma reports_run filters explain testing stable st Lr Le C S :
  heap st !! filters = Some Lr →
  heap st !! explain = Some Le →
  heap st !! testing = Some C →
  heap st !! stable = Some S →
  ∃ o st' evs news,
    reports STABLE filters explain testing stable st = (o, st') ∧
    trace st' = trace st ++ evs ∧
    heap st' = heap st ++ news ∧
    Forall (λ e, quiet e ∨ run_event STABLE "rules" STABLE Lr C S e
                 ∨ run_event STABLE "explain" "explain" Le C S e) evs ∧
    (o = Ret tt →
     news = [Lr ∖ C; (Lr ∖ C) ∩ S; (Lr ∖ C) ∖ S;
             Le ∖ C; (Le ∖ C) ∩ S; (Le ∖ C) ∖ S]).
Proof.
  intros Hf He Ht Hs. unfold reports. rewrite bind_run.
  destruct (process_events "rules" _ _ _ STABLE st Lr C S Hf Ht Hs)
    as (o1 & st1 & evs1 & -> & Hheap1 & Htrace1 & Hevs1).
  assert (Forall (λ e, quiet e ∨ run_event STABLE "rules" STABLE Lr C S e
                       ∨ run_event STABLE "explain" "explain" Le C S e) evs1)
    as Hevs1'.
  { eapply Forall_impl; [exact Hevs1|]. intros e ?. by right; left. }
  destruct o1 as [[]|e1].
  2: { by exists (Raise e1), st1, evs1, [Lr ∖ C; (Lr ∖ C) ∩ S; (Lr ∖ C) ∖ S]. }
  rewrite bind_run. run_prims; simpl.
  set (st2 := State _ _ _).
  destruct (process_events "explain" explain testing stable "explain" st2 Le C S)
    as (o2 & st3 & evs2 & -> & Hheap2 & Htrace2 & Hevs2).
  { simpl. rewrite Hheap1. by apply lookup_app_l_Some. }
  { simpl. rewrite Hheap1. by apply lookup_app_l_Some. }
  { simpl. rewrite Hheap1. by apply lookup_app_l_Some. }
  exists o2, st3, (evs1 ++ [EPrint []] ++ evs2),
    [Lr ∖ C; (Lr ∖ C) ∩ S; (Lr ∖ C) ∖ S; Le ∖ C; (Le ∖ C) ∩ S; (Le ∖ C) ∖ S].
  split; [done|]. split.
  { rewrite Htrace2. simpl. rewrite Htrace1. by rewrite <-!app_assoc. }
  split.
  { rewrite Hheap2. simpl. rewrite Hheap1. by rewrite <-app_assoc. }
  split; [|done].
  apply Forall_app. split; [done|]. apply Forall_cons. split; [by left|].
  eapply Forall_impl; [exact Hevs2|]. intros e ?. by right; right.
Qed.

(** The whole script: [testing] holds the fixed names, [explain] holds
    names in lower case only, and every event that lists names or moves a
    file belongs to one of the two calls of [process]. *)
Lemma main_run st :
  ∃ o st' evs Lr Le C S,
    main STABLE st = (o, st') ∧
    trace st' = trace st ++ evs ∧
    allow_list ⊆ C ∧
    (∀ n, n ∈ Le → n = Py.lower n) ∧
    Forall (λ e, quiet e ∨ run_event STABLE "rules" STABLE Lr C S e
                 ∨ run_event STABLE "explain" "explain" Le C S e) evs.
Proof.
  unfold main. rewrite bind_run, testing_run.
  destruct (os_popen (world st) _) as [[w1 out]|].
  2: { eexists _, _, [_], ∅, ∅, allow_list, ∅. split; [done|].
       split; [done|]. split; [done|]. split; [by intros n ?%elem_of_empty|].
       apply Forall_singleton. by left. }
  set (st1 := State _ _ _). rewrite bind_run.
  destruct (download_run st1) as (o2 & w2 & evs2 & -> & Hevs2).
  assert (Forall (λ e, quiet e
                       ∨ run_event STABLE "rules" STABLE ∅ (testing_set out) ∅ e
                       ∨ run_event STABLE "explain" "explain" ∅ (testing_set out) ∅ e)
                 (EPopen ["apt-cache"; "pkgnames"] :: evs2)) as Hpre.
  { apply Forall_cons. split; [by left|].
    eapply Forall_impl; [exact Hevs2|]. intros e ?. by left. }
  assert (allow_list ⊆ testing_set out) as Hallow.
  { apply union_subseteq_l. }
  destruct o2 as [[]|e2].
  2: { eexists _, _, (_ :: evs2), ∅, ∅, (testing_set out), ∅. split; [done|].
       simpl. rewrite <-app_assoc. split; [done|]. split; [done|].
       split; [by intros n ?%elem_of_empty|done]. }
  simpl. rewrite bind_run, stable_run; simpl.
  destruct (os_read w2 _) as [text|].
  2: { eexists _, _, (_ :: evs2), ∅, ∅, (testing_set out), ∅. split; [done|].
       simpl. rewrite <-app_assoc. split; [done|]. split; [done|].
       split; [by intros n ?%elem_of_empty|done]. }
  rewrite bind_run, filters_run; simpl.
  rewrite bind_run, explain_run; simpl.
  set (Lr := filters_set _). set (Le := explain_set _).
  set (st4 := State _ _ _).
  match goal with
  | |- context [reports STABLE ?f ?e ?t ?s st4] =>
      destruct (reports_run f e t s st4 Lr Le (testing_set out) (stable_spec text))
        as (o & st' & evs & news & -> & Htrace & _ & Hevs & _)
  end.
  { apply lookup_snoc_Some, lookup_snoc. }
  { apply lookup_snoc. }
  { do 3 apply lookup_snoc_Some. apply lookup_snoc. }
  { do 2 apply lookup_snoc_Some. apply lookup_snoc. }
  exists o, st', (EPopen ["apt-cache"; "pkgnames"] :: evs2 ++ evs),
    Lr, Le, (testing_set out), (stable_spec text).
  split.
  { f_equal. }
  split.
  { rewrite Htrace. simpl. by rewrite <-!app_assoc. }
  split; [done|]. split; [apply explain_set_lower|].
  apply Forall_cons. split; [by left|]. apply Forall_app. split; [|done].
  eapply Forall_impl; [exact Hevs2|]. intros e ?. by left.
Qed.

End MainRun.
(** ** The steps of the script one by one *)

Section Steps.
Context {World : Type} {os : OS World} {order : SetOrder}.
Variable STABLE : string.
Implicit Types (st : @state World) (X Y L C S D U : gset string).

Lemma set_sub_run a b X Y st :
  heap st !! a = Some X → heap st !! b = Some Y →
  set_sub a b st
  = (Ret (length (heap st)),
     State (heap st ++ [X ∖ Y]) (world st) (trace st)).
Proof.
  intros Ha Hb. unfold set_sub, deref. run_prims. by rewrite Ha, Hb.
Qed.

Lemma set_and_run a b X Y st :
  heap st !! a = Some X → heap st !! b = Some Y →
  set_and a b st
  = (Ret (length (heap st)),
     State (heap st ++ [X ∩ Y]) (world st) (trace st)).
Proof.
  intros Ha Hb. unfold set_and, deref. run_prims. by rewrite Ha, Hb.
Qed.

Lemma set_iter_run a X st :
  heap st !! a = Some X → set_iter a st = (Ret (iter X), st).
Proof. intros Ha. unfold set_iter, deref. run_prims. by rewrite Ha. Qed.

Lemma sorted_run a X st :
  heap st !! a = Some X → sorted a st = (Ret (Py.sorted (iter X)), st).
Proof.
  intros Ha. unfold sorted. rewrite bind_run, (set_iter_run _ X) by done.
  done.
Qed.

(** One turn of the loop, case by case. *)
Lemma process_item_run category archive item st :
  process_item category archive item st
  = if os_isdir (world st) (destdir archive) then
      match os_run (world st)
              ["git"; "mv"; Py.join category item; destdir archive] None with
      | Some (w', status) =>
          (Ret tt,
           State (heap st) w'
             (trace st ++ [git_mv category archive item (Some status)]))
      | None =>
          (Raise OSError,
           State (heap st) (world st)
             (trace st ++ [git_mv category archive item None]))
      end
    else
      match os_makedirs (world st) (destdir archive) with
      | Some w1 =>
          match os_run w1
                  ["git"; "mv"; Py.join category item; destdir archive]
                  None with
          | Some (w', status) =>
              (Ret tt,
               State (heap st) w'
                 (trace st ++ [EMakedirs (destdir archive);
                               git_mv category archive item (Some status)]))
          | None =>
              (Raise OSError,
               State (heap st) w1
                 (trace st ++ [EMakedirs (destdir archive);
                               git_mv category archive item None]))
          end
      | None =>
          (Raise OSError,
           State (heap st) (world st)
             (trace st ++ [EMakedirs (destdir archive)]))
      end.
Proof.
  unfold process_item. run_prims; simpl. fold (destdir archive).
  destruct (os_isdir (world st) (destdir archive)); simpl.
  - by destruct (os_run (world st) _ None) as [[w' status]|].
  - destruct (os_makedirs (world st) (destdir archive)) as [w1|]; simpl;
      [|done].
    destruct (os_run w1 _ None) as [[w' status]|]; simpl;
      by rewrite <-app_assoc.
Qed.

(** Lines 44-48 of [process], up to the loop. *)
Lemma process_prologue category packages testing stable archive st L C S :
  heap st !! packages = Some L →
  heap st !! testing = Some C →
  heap st !! stable = Some S →
  process STABLE category packages testing stable archive st
  = (for_each (iter ((L ∖ C) ∩ S)) (process_item category archive);;
     us ← sorted (length (heap st) + 2)%nat;
     print [VStr "unknown:"; VList us])
      (State (heap st ++ [L ∖ C; (L ∖ C) ∩ S; (L ∖ C) ∖ S]) (world st)
             (trace st ++ [header category;
                           deprecated_report STABLE
                             (Py.sorted (iter ((L ∖ C) ∩ S)))])).
Proof.
  intros Hp Ht Hs. unfold process.
  rewrite bind_run, (set_sub_run _ _ L C) by done.
  rewrite bind_run, (set_and_run _ _ (L ∖ C) S)
    by (simpl; auto using lookup_snoc, lookup_snoc_Some).
  rewrite bind_run, (set_sub_run _ _ (L ∖ C) S)
    by (simpl; auto using lookup_snoc, lookup_snoc_Some).
  simpl. rewrite bind_run. run_prims; simpl.
  rewrite (sorted_run _ ((L ∖ C) ∩ S)).
  2: { simpl. rewrite length_app. simpl.
       apply lookup_snoc_Some. rewrite Nat.add_1_r.
       replace (Datatypes.S (length (heap st)))
         with (length (heap st ++ [L ∖ C])) by (rewrite length_app; simpl; lia).
       apply lookup_snoc. }
  simpl. rewrite (set_iter_run _ ((L ∖ C) ∩ S)).
  2: { simpl. rewrite length_app. simpl.
       apply lookup_snoc_Some. rewrite Nat.add_1_r.
       replace (Datatypes.S (length (heap st)))
         with (length (heap st ++ [L ∖ C])) by (rewrite length_app; simpl; lia).
       apply lookup_snoc. }
  rewrite !length_app; simpl. rewrite <-!app_assoc; simpl.
  rewrite <-Nat.add_assoc. done.
Qed.

(** The loop of [process] changes no set. *)
Lemma archive_loop_heap category archive items st :
  heap (for_each items (process_item category archive) st).2 = heap st.
Proof.
  revert st. induction items as [|x items IH]; intros st; [done|].
  simpl. rewrite bind_run, process_item_run.
  destruct (os_isdir (world st) (destdir archive)).
  - destruct (os_run (world st) _ None) as [[w' status]|]; [|done].
    by rewrite IH.
  - destruct (os_makedirs (world st) (destdir archive)) as [w1|]; [|done].
    destruct (os_run w1 _ None) as [[w' status]|]; [|done].
    by rewrite IH.
Qed.

Lemma iter_nonempty X n : n ∈ X → ∃ x rest, iter X = x :: rest.
Proof.
  intros Hn. destruct (iter X) as [|x rest] eqn:Hiter; [|by eauto].
  apply elem_of_elements in Hn. rewrite <-iter_perm, Hiter in Hn.
  by apply elem_of_nil in Hn.
Qed.

(** On a file system that keeps its directories the loop makes the
    destination at most once, before the first [git mv]. *)
Lemma archive_loop_once category archive items st :
  keeps_directories →
  ∃ o st' pre mvs,
    for_each items (process_item category archive) st = (o, st') ∧
    trace st' = trace st ++ pre ++ mvs ∧
    (pre = [] ∨ pre = [EMakedirs (destdir archive)]) ∧
    Forall (λ e, is_Some (git_mv_of e)) mvs ∧
    (os_isdir (world st) (destdir archive) = true → pre = []) ∧
    (items = [] → pre = []).
Proof.
  intros [Hmk Hkeep]. revert st.
  induction items as [|x items IH]; intros st.
  { exists (Ret tt), st, [], []. simpl. rewrite app_nil_r.
    split; [done|]. split; [done|]. split; [by left|]. by split. }
  simpl. rewrite bind_run, process_item_run.
  destruct (os_isdir (world st) (destdir archive)) eqn:Hdir.
  - destruct (os_run (world st) _ None) as [[w' status]|] eqn:Hrun.
    + set (st1 := State _ _ _).
      destruct (IH st1) as (o & st' & pre & mvs & -> & Htrace & _ & Hmvs & Hpre & _).
      rewrite Hpre in Htrace by (simpl; eauto).
      exists o, st', [], (git_mv category archive x (Some status) :: mvs).
      split; [done|]. split; [by rewrite Htrace; simpl; rewrite <-app_assoc|].
      split; [by left|]. split; [|done].
      apply Forall_cons. split; [by eexists|done].
    + eexists _, _, [], [_]. split; [done|]. split; [done|].
      split; [by left|]. split; [|done].
      apply Forall_singleton. by eexists.
  - destruct (os_makedirs (world st) (destdir archive)) as [w1|] eqn:Hmake.
    + destruct (os_run w1 _ None) as [[w' status]|] eqn:Hrun.
      * set (st1 := State _ _ _).
        destruct (IH st1) as (o & st' & pre & mvs & -> & Htrace & _ & Hmvs & Hpre & _).
        rewrite Hpre in Htrace by (simpl; eauto).
        exists o, st', [EMakedirs (destdir archive)],
          (git_mv category archive x (Some status) :: mvs).
        split; [done|].
        split; [by rewrite Htrace; simpl; rewrite <-app_assoc|].
        split; [by right|]. split; [|done].
        apply Forall_cons. split; [by eexists|done].
      * eexists _, _, [EMakedirs (destdir archive)], [_].
        split; [done|]. split; [done|]. split; [by right|].
        split; [|done]. apply Forall_singleton. by eexists.
    + eexists _, _, [EMakedirs (destdir archive)], [].
      split; [done|]. split; [done|]. split; [by right|]. done.
Qed.

End Steps.

(** ** The script up to the reports *)

Section ScriptSteps.
Context {World : Type} {os : OS World} {order : SetOrder}.
Variable STABLE : string.
Implicit Types (st : @state World) (X Y L C S D U : gset string).

Lemma download_exact st :
  download st
  = if os_isfile (world st) "tools/Packages_amd64" then (Ret tt, st)
    else
      match os_run (world st) ben_download (Some "tools") with
      | None =>
          (Raise OSError,
           State (heap st) (world st)
             (trace st ++ [ERun ben_download (Some "tools") None]))
      | Some (w1, status) =>
          if bool_decide (status = 0) then
            match os_unlink w1 "tools/Sources" with
            | Some w2 =>
                (Ret tt,
                 State (heap st) w2
                   (trace st ++ [ERun ben_download (Some "tools") (Some status);
                                 EUnlink "tools/Sources"]))
            | None =>
                (Raise OSError,
                 State (heap st) w1
                   (trace st ++ [ERun ben_download (Some "tools") (Some status);
                                 EUnlink "tools/Sources"]))
            end
          else
            (Raise (CalledProcessError status),
             State (heap st) w1
               (trace st ++ [ERun ben_download (Some "tools") (Some status)]))
      end.
Proof.
  unfold download. run_prims; simpl. fold ben_download.
  destruct (os_isfile (world st) _); simpl; [done|].
  destruct (os_run (world st) _ _) as [[w1 status]|]; simpl; [|done].
  destruct (bool_decide (status = 0)); simpl; [|done].
  destruct (os_unlink w1 _) as [w2|]; simpl; by rewrite <-app_assoc.
Qed.

(** The script up to line 41, when the index is cached. *)
Lemma main_cached_run st w1 out text :
  os_popen (world st) apt_cache = Some (w1, out) →
  os_isfile w1 "tools/Packages_amd64" = true →
  os_read w1 "tools/Packages_amd64" = Some text →
  main STABLE st
  = reports STABLE (length (heap st) + 2)%nat (length (heap st) + 3)%nat
      (length (heap st)) (length (heap st) + 1)%nat
      (State (heap st ++ [testing_set out; stable_spec text;
                          filters_set (os_listdir w1 "rules");
                          explain_set (os_listdir w1 "explain")])
             w1 (trace st ++ [EPopen apt_cache])).
Proof.
  intros Hpopen Hfile Hread. unfold main.
  rewrite bind_run, testing_run. fold apt_cache. rewrite Hpopen.
  rewrite bind_run, download_exact. simpl. rewrite Hfile.
  rewrite bind_run, stable_run. simpl. rewrite Hread.
  rewrite bind_run, filters_run. simpl.
  rewrite bind_run, explain_run. simpl.
  rewrite !length_app. simpl. rewrite <-!app_assoc. simpl.
  by rewrite <-!Nat.add_assoc.
Qed.

End ScriptSteps.

(** ** The loop of [process] and the answers of the world *)

Section ArchiveLoop.
Context {World : Type} {os : OS World} {order : SetOrder}.
Implicit Types (st : @state World) (X Y L C S D U : gset string).

(** One turn of the loop in terms of [ensure_destination]. *)
Lemma process_item_moved category archive item st pre w1 w2 status :
  ensure_destination archive (world st) = (pre, Some w1) →
  os_run w1 ["git"; "mv"; Py.join category item; destdir archive] None
  = Some (w2, status) →
  process_item category archive item st
  = (Ret tt,
     State (heap st) w2
       (trace st ++ pre ++ [git_mv category archive item (Some status)])).
Proof.
  unfold ensure_destination. rewrite process_item_run.
  destruct (os_isdir (world st) (destdir archive)).
  - intros [= <- <-] ->. done.
  - intros [= <- ->] ->. done.
Qed.

(** The loop follows [archive_step] and changes no set. *)
Lemma archive_loop_step category archive items st :
  ∃ o st' evs,
    for_each items (process_item category archive) st = (o, st') ∧
    heap st' = heap st ∧
    trace st' = trace st ++ evs ∧
    archive_step category archive (world st) items evs (world st') o.
Proof.
  revert st. induction items as [|x items IH]; intros st.
  { exists (Ret tt), st, []. rewrite app_nil_r. repeat split. constructor. }
  simpl. rewrite bind_run, process_item_run.
  destruct (os_isdir (world st) (destdir archive)) eqn:Hdir.
  - destruct (os_run (world st) _ None) as [[w2 status]|] eqn:Hrun.
    + set (st1 := State _ _ _).
      destruct (IH st1) as (o & st' & evs & -> & Hheap & Htrace & Hstep).
      exists o, st', (git_mv category archive x (Some status) :: evs).
      split; [done|]. split; [done|].
      split; [by rewrite Htrace; simpl; rewrite <-app_assoc|].
      apply (archive_moved category archive (world st) x items []
               (world st) w2 status); [|done..].
      unfold ensure_destination. by rewrite Hdir.
    + eexists _, _, [_]. split; [done|]. split; [done|]. split; [done|].
      simpl.
      apply (archive_not_started category archive (world st) x items []
               (world st)); [|done].
      unfold ensure_destination. by rewrite Hdir.
  - destruct (os_makedirs (world st) (destdir archive)) as [w1|] eqn:Hmake.
    + destruct (os_run w1 _ None) as [[w2 status]|] eqn:Hrun.
      * set (st1 := State _ _ _).
        destruct (IH st1) as (o & st' & evs & -> & Hheap & Htrace & Hstep).
        exists o, st',
          ([EMakedirs (destdir archive)]
           ++ git_mv category archive x (Some status) :: evs).
        split; [done|]. split; [done|].
        split; [by rewrite Htrace; simpl; rewrite <-app_assoc|].
        apply (archive_moved category archive (world st) x items
                 [EMakedirs (destdir archive)] w1 w2 status); [|done..].
        unfold ensure_destination. by rewrite Hdir, Hmake.
      * eexists _, _, ([EMakedirs (destdir archive)] ++ [_]).
        split; [done|]. split; [done|]. split; [done|].
        simpl.
        apply (archive_not_started category archive (world st) x items
                 [EMakedirs (destdir archive)] w1); [|done].
        unfold ensure_destination. by rewrite Hdir, Hmake.
    + eexists _, _, [EMakedirs (destdir archive)].
      split; [done|]. split; [done|]. split; [done|].
      simpl. apply archive_not_made. unfold ensure_destination.
      by rewrite Hdir, Hmake.
Qed.

Lemma ensure_destination_events archive (w : World) pre ow :
  ensure_destination archive w = (pre, ow) →
  pre = [] ∨ pre = [EMakedirs (destdir archive)].
Proof.
  unfold ensure_destination.
  destruct (os_isdir w (destdir archive)); intros [= <- _]; auto.
Qed.

(** A loop that ends normally has started one [git mv] for each item, in
    order. *)
Lemma archive_step_ret category archive (w : World) items evs w' :
  archive_step category archive w items evs w' (Ret tt) →
  omap git_mv_of evs = Py.join category <$> items.
Proof.
  remember (Ret tt) as o eqn:Ho. induction 1 as
    [ w | w item items pre w1 w2 status evs w' o Hpre Hrun _ IH
    | w item items pre w1 Hpre Hrun | w item items pre Hpre ];
    [done| |done..].
  change (git_mv category archive item (Some status) :: evs)
    with ([git_mv category archive item (Some status)] ++ evs).
  rewrite !omap_app, IH, fmap_cons by done.
  by apply ensure_destination_events in Hpre as [-> | ->].
Qed.

(** A loop that raises has met [os.makedirs] failing or [git] not starting,
    and this is its last event. *)
Lemma archive_step_raise category archive (w : World) items evs w' e :
  archive_step category archive w items evs w' (Raise e) →
  e = OSError ∧
  ∃ evs0,
    (evs = evs0 ++ [EMakedirs (destdir archive)] ∧
     ∃ w0, os_isdir w0 (destdir archive) = false ∧
           os_makedirs w0 (destdir archive) = None) ∨
    (∃ item w0,
       item ∈ items ∧
       evs = evs0 ++ [git_mv category archive item None] ∧
       os_run w0 ["git"; "mv"; Py.join category item; destdir archive] None
       = None).
Proof.
  remember (Raise e) as o eqn:Ho. induction 1 as
    [ w | w item items pre w1 w2 status evs w' o Hpre Hrun _ IH
    | w item items pre w1 Hpre Hrun | w item items pre Hpre ];
    [done| | |].
  - destruct (IH Ho) as (-> & evs0 & Hcase). split; [done|].
    exists (pre ++ git_mv category archive item (Some status) :: evs0).
    destruct Hcase as [(-> & Hw) | (item' & w0 & Hin & -> & Hw)].
    + left. split; [by rewrite <-app_assoc|done].
    + right. exists item', w0. split; [by apply elem_of_cons; right|].
      split; [by rewrite <-app_assoc|done].
  - injection Ho as <-. split; [done|]. exists pre. right.
    exists item, w1. split; [by apply elem_of_cons; left|]. done.
  - injection Ho as <-. split; [done|]. exists [].
    left. unfold ensure_destination in Hpre.
    destruct (os_isdir w (destdir archive)) eqn:Hdir; [done|].
    injection Hpre as <- Hmk. split; [done|]. by exists w.
Qed.

End ArchiveLoop.

Section ProcessSteps.
Context {World : Type} {os : OS World} {order : SetOrder}.
Variable STABLE : string.
Implicit Types (st : @state World) (X Y L C S D U : gset string).

(** The run of [process] with its archive step told by [archive_step]. *)
Lemma process_archive_step category packages testing stable archive
    st L C S :
  heap st !! packages = Some L →
  heap st !! testing = Some C →
  heap st !! stable = Some S →
  ∃ o st' moves,
    process STABLE category packages testing stable archive st = (o, st') ∧
    heap st' = heap st ++ [L ∖ C; (L ∖ C) ∩ S; (L ∖ C) ∖ S] ∧
    trace st' = trace st
                ++ [header category;
                    deprecated_report STABLE (Py.sorted (iter ((L ∖ C) ∩ S)))]
                ++ moves
                ++ match o with
                   | Ret _ => [unknown_report (Py.sorted (iter ((L ∖ C) ∖ S)))]
                   | Raise _ => []
                   end ∧
    archive_step category archive (world st) (iter ((L ∖ C) ∩ S)) moves
      (world st') o.
Proof.
  intros Hp Ht Hs.
  rewrite (process_prologue STABLE category _ _ _ archive st L C S) by done.
  set (st0 := State _ _ _). rewrite bind_run.
  destruct (archive_loop_step category archive (iter ((L ∖ C) ∩ S)) st0)
    as (o & st' & moves & -> & Hheap & Htrace & Hstep).
  destruct o as [[]|e].
  - rewrite bind_run, (sorted_run _ ((L ∖ C) ∖ S)).
    2: { rewrite Hheap. simpl.
         replace (length (heap st) + 2)%nat
           with (length (heap st ++ [L ∖ C; (L ∖ C) ∩ S]))
           by (rewrite length_app; simpl; lia).
         replace (heap st ++ [L ∖ C; (L ∖ C) ∩ S; (L ∖ C) ∖ S])
           with ((heap st ++ [L ∖ C; (L ∖ C) ∩ S]) ++ [(L ∖ C) ∖ S])
           by (by rewrite <-app_assoc).
         apply lookup_snoc. }
    run_prims. simpl.
    eexists (Ret tt), _, moves. split; [done|]. simpl.
    split; [done|]. split; [|done].
    rewrite Htrace. simpl. by rewrite <-!app_assoc.
  - exists (Raise e), st', moves. split; [done|]. split; [done|].
    split; [|done]. rewrite Htrace. simpl. by rewrite <-!app_assoc, app_nil_r.
Qed.

(** Lines 56-58 begin with the header and the deprecated names of
    [rules]. *)
Lemma reports_begin filters explain testing stable st Lr Le C S :
  heap st !! filters = Some Lr →
  heap st !! explain = Some Le →
  heap st !! testing = Some C →
  heap st !! stable = Some S →
  ∃ o st' rest,
    reports STABLE filters explain testing stable st = (o, st') ∧
    trace st' = trace st
                ++ header "rules"
                   :: deprecated_report STABLE
                        (Py.sorted (iter ((Lr ∖ C) ∩ S)))
                   :: rest.
Proof.
  intros Hf He Ht Hs. unfold reports. rewrite bind_run.
  destruct (process_run STABLE "rules" _ _ _ STABLE st Lr C S Hf Ht Hs)
    as (o1 & w1 & moves1 & done1 & -> & _).
  destruct o1 as [[]|e1]; [|by eexists _, _, _].
  rewrite bind_run. run_prims; simpl.
  set (st2 := State _ _ _).
  destruct (process_events STABLE "explain" explain testing stable "explain"
              st2 Le C S)
    as (o2 & st3 & evs2 & -> & _ & Htrace2 & _);
    [by apply lookup_app_l_Some..|].
  eexists o2, st3, _. split; [done|]. rewrite Htrace2. simpl.
  by rewrite <-!app_assoc.
Qed.

End ProcessSteps.
(** ** The properties of the classifier and archiver *)

Section Claims.
Context {World : Type} {os : OS World} {order : SetOrder}.
Variable STABLE : string.
Implicit Types (st : @state World) (X Y L C S D U : gset string).

(** C1: for all sets [L] of local names, [C] of current names and [S] of
    stable names, [process] computes the deprecated names as
    [(L ∖ C) ∩ S] and the unknown names as [(L ∖ C) ∖ S]: these are the
    sets it creates, the names it lists in its two reports, and the
    deprecated ones are those it moves.  In particular [L = {a, b, c}],
    [C = {a}], [S = {b}] give deprecated [{b}] and unknown [{c}], and
    [L = {a, b}], [C = {a}] with an empty [S] give deprecated [{}] and
    unknown [{b}]. *)
Theorem C1_process_classification category packages testing stable archive
    st L C S :
  heap st !! packages = Some L →
  heap st !! testing = Some C →
  heap st !! stable = Some S →
  ∃ o st' ds us moves,
    process STABLE category packages testing stable archive st = (o, st') ∧
    heap st' = heap st ++ [L ∖ C; (L ∖ C) ∩ S; (L ∖ C) ∖ S] ∧
    trace st' = trace st
                ++ [header category; deprecated_report STABLE ds]
                ++ moves
                ++ match o with
                   | Ret _ => [unknown_report us]
                   | Raise _ => []
                   end ∧
    (∀ n, n ∈ ds ↔ n ∈ (L ∖ C) ∩ S) ∧
    (∀ n, n ∈ us ↔ n ∈ (L ∖ C) ∖ S) ∧
    Forall (move_event category archive ((L ∖ C) ∩ S)) moves ∧
    (L = {["a"; "b"; "c"]} → C = {["a"]} → S = {["b"]} →
     (L ∖ C) ∩ S = {["b"]} ∧ (L ∖ C) ∖ S = {["c"]} ∧ ds = ["b"] ∧ us = ["c"]) ∧
    (L = {["a"; "b"]} → C = {["a"]} → S = ∅ →
     (L ∖ C) ∩ S = ∅ ∧ (L ∖ C) ∖ S = {["b"]} ∧ ds = [] ∧ us = ["b"]).
Proof.
  intros Hp Ht Hs.
  destruct (process_run STABLE category _ _ _ archive st L C S Hp Ht Hs)
    as (o & w' & moves & done & Hrun & _ & Hmoves & _).
  eexists o, _, _, _, moves. split; [exact Hrun|].
  split; [done|]. split; [done|].
  split; [apply sorted_iter_elem|]. split; [apply sorted_iter_elem|].
  split; [done|]. split.
  - intros -> -> ->.
    assert (({["a"; "b"; "c"]} ∖ {["a"]}) ∩ {["b"]} = ({["b"]} : gset string))
      as -> by (by vm_compute).
    assert (({["a"; "b"; "c"]} ∖ {["a"]}) ∖ {["b"]} = ({["c"]} : gset string))
      as -> by (by vm_compute).
    by rewrite !iter_singleton.
  - intros -> -> ->.
    assert (({["a"; "b"]} ∖ {["a"]}) ∩ ∅ = (∅ : gset string))
      as -> by (by vm_compute).
    assert (({["a"; "b"]} ∖ {["a"]}) ∖ ∅ = ({["b"]} : gset string))
      as -> by (by vm_compute).
    by rewrite iter_empty, iter_singleton.
Qed.

(** C2: for all [L], [C] and [S], the deprecated set and the unknown set
    that [process] computes and reports are disjoint, and together with
    [L ∩ C] they make up [L]: every local name is in exactly one of
    current, deprecated and unknown. *)
Theorem C2_three_buckets category packages testing stable archive
    st L C S :
  heap st !! packages = Some L →
  heap st !! testing = Some C →
  heap st !! stable = Some S →
  ∃ o st' D U,
    process STABLE category packages testing stable archive st = (o, st') ∧
    heap st' = heap st ++ [L ∖ C; D; U] ∧
    deprecated_report STABLE (Py.sorted (iter D)) ∈ trace st' ∧
    (o = Ret tt → unknown_report (Py.sorted (iter U)) ∈ trace st') ∧
    D ∩ U = ∅ ∧
    D ∪ U ∪ (L ∩ C) = L ∧
    (∀ n, n ∈ L →
       (n ∈ L ∩ C ∧ ¬ n ∈ D ∧ ¬ n ∈ U) ∨ (¬ n ∈ L ∩ C ∧ n ∈ D ∧ ¬ n ∈ U)
       ∨ (¬ n ∈ L ∩ C ∧ ¬ n ∈ D ∧ n ∈ U)).
Proof.
  intros Hp Ht Hs.
  destruct (process_run STABLE category _ _ _ archive st L C S Hp Ht Hs)
    as (o & w' & moves & done & Hrun & _).
  eexists o, _, _, _. split; [exact Hrun|]. split; [done|]. simpl.
  split; [in_trace|]. split; [intros ->; in_trace|].
  split.
  { apply set_eq. intros n.
    rewrite elem_of_intersection, elem_of_intersection, !elem_of_difference,
      elem_of_empty. tauto. }
  split.
  { apply set_eq. intros n.
    rewrite !elem_of_union, !elem_of_intersection, !elem_of_difference.
    destruct (decide (n ∈ C)), (decide (n ∈ S)); tauto. }
  intros n Hn.
  rewrite !elem_of_intersection, !elem_of_difference.
  destruct (decide (n ∈ C)), (decide (n ∈ S)); tauto.
Qed.

(** C3, as the script has it: within one call of [process] the line with
    the category and the report of the deprecated names come before every
    event of the archive step, and the report of the unknown names comes
    after all of them, as the last event; it is missing when an [OSError]
    ended the archive step. *)
Theorem C3_moves_between_reports category packages testing stable archive
    st L C S :
  heap st !! packages = Some L →
  heap st !! testing = Some C →
  heap st !! stable = Some S →
  ∃ o st' moves,
    process STABLE category packages testing stable archive st = (o, st') ∧
    trace st' = trace st
                ++ [header category;
                    deprecated_report STABLE (Py.sorted (iter ((L ∖ C) ∩ S)))]
                ++ moves
                ++ match o with
                   | Ret _ => [unknown_report (Py.sorted (iter ((L ∖ C) ∖ S)))]
                   | Raise _ => []
                   end ∧
    (o = Ret tt ∨ o = Raise OSError) ∧
    Forall (λ e, is_move e = true ∧ is_report e = false) moves.
Proof.
  intros Hp Ht Hs.
  destruct (process_run STABLE category _ _ _ archive st L C S Hp Ht Hs)
    as (o & w' & moves & done & Hrun & Ho & Hmoves & _).
  eexists o, _, moves. split; [exact Hrun|]. split; [done|].
  split; [done|].
  eapply Forall_impl; [exact Hmoves|].
  by intros e [-> | (item & status & _ & ->)].
Qed.


(** C5: whenever [apt-cache] starts, whatever it prints, [testing] returns
    a set that holds the three fixed names beside the printed ones.  Hence,
    for every inventory, a local name equal to one of them counts as
    current: it is neither deprecated nor unknown, no report lists it and no
    [git mv] moves its file, in every call of [process] with such a set of
    current names and in every run of the whole script; and when the index
    is cached and readable the script does reach the report of [rules],
    classified against that set. *)
Theorem C5_allow_list_current n st :
  n ∈ allow_list →
  (∀ w' out,
     os_popen (world st) apt_cache = Some (w', out) →
     ∃ C,
       testing st
       = (Ret (length (heap st)),
          State (heap st ++ [C]) w' (trace st ++ [EPopen apt_cache])) ∧
       n ∈ C ∧
       (∀ line, line ∈ Py.readlines out → Py.rstrip line ∈ C)) ∧
  (∀ t st1, testing st = (Ret t, st1) →
     ∃ C, heap st1 !! t = Some C ∧ n ∈ C) ∧
  (∀ category packages testing stable archive st0 L C S,
     category = "rules" ∨ category = "explain" →
     heap st0 !! packages = Some L →
     heap st0 !! testing = Some C →
     heap st0 !! stable = Some S →
     allow_list ⊆ C →
     ∃ o st' evs,
       process STABLE category packages testing stable archive st0 = (o, st') ∧
       trace st' = trace st0 ++ evs ∧
       (n ∈ L → n ∈ L ∩ C) ∧
       ¬ n ∈ (L ∖ C) ∩ S ∧ ¬ n ∈ (L ∖ C) ∖ S ∧
       ¬ reported n evs ∧ ¬ archived category n evs) ∧
  (∃ o st' evs,
     main STABLE st = (o, st') ∧
     trace st' = trace st ++ evs ∧
     ¬ reported n evs ∧ ¬ archived "rules" n evs ∧ ¬ archived "explain" n evs) ∧
  (∀ w1 out text,
     os_popen (world st) apt_cache = Some (w1, out) →
     os_isfile w1 "tools/Packages_amd64" = true →
     os_read w1 "tools/Packages_amd64" = Some text →
     n ∈ testing_set out ∧
     ∃ o st' evs rest,
       main STABLE st = (o, st') ∧
       trace st' = trace st ++ evs ∧
       evs = EPopen apt_cache
             :: header "rules"
             :: deprecated_report STABLE
                  (Py.sorted
                     (iter ((filters_set (os_listdir w1 "rules")
                             ∖ testing_set out) ∩ stable_spec text)))
             :: rest ∧
       ¬ reported n evs ∧
       ¬ archived "rules" n evs ∧ ¬ archived "explain" n evs).
Proof.
  intros Hn.
  assert (∃ o st' evs,
     main STABLE st = (o, st') ∧
     trace st' = trace st ++ evs ∧
     ¬ reported n evs ∧ ¬ archived "rules" n evs
     ∧ ¬ archived "explain" n evs) as Hmain.
  { destruct (main_run STABLE st)
      as (o & st' & evs & Lr & Le & C & S & Hrun & Htrace & HC & _ & Hevs).
    assert (n ∈ C) as HnC by auto.
    assert (∀ L, ¬ (n ∈ (L ∖ C) ∩ S ∨ n ∈ (L ∖ C) ∖ S)) as Hnot.
    { intros L. rewrite elem_of_intersection, !elem_of_difference. tauto. }
    assert (∀ L, ¬ n ∈ (L ∖ C) ∩ S) as HnotD.
    { intros L. rewrite elem_of_intersection, !elem_of_difference. tauto. }
    rewrite Forall_forall in Hevs.
    exists o, st', evs. split; [done|]. split; [done|].
    pose proof (allow_list_relative n Hn) as Hrel.
    split; [|split].
    + intros (e & xs & He & Hxs & Hin).
      destruct (Hevs e He) as [Hq | [Hr | Hr]].
      * by eapply quiet_not_reported.
      * eapply Hnot, run_event_report; eauto.
      * eapply Hnot, run_event_report; eauto.
    + intros (e & He & Hsrc).
      destruct (Hevs e He) as [[_ Hq] | [Hr | Hr]].
      * by rewrite Hq in Hsrc.
      * destruct (run_event_git_mv STABLE "rules" STABLE Lr C S e
                    "rules" n) as [_ HD]; auto.
        by apply (HnotD Lr).
      * by destruct (run_event_git_mv STABLE "explain" "explain" Le C S e
                       "rules" n) as [? _]; auto.
    + intros (e & He & Hsrc).
      destruct (Hevs e He) as [[_ Hq] | [Hr | Hr]].
      * by rewrite Hq in Hsrc.
      * by destruct (run_event_git_mv STABLE "rules" STABLE Lr C S e
                       "explain" n) as [? _]; auto.
      * destruct (run_event_git_mv STABLE "explain" "explain" Le C S e
                    "explain" n) as [_ HD]; auto.
        by apply (HnotD Le). }
  split; [|split; [|split; [|split; [exact Hmain|]]]].
  - intros w' out Hpopen. exists (testing_set out).
    rewrite testing_run. fold apt_cache. rewrite Hpopen.
    split; [done|]. split; [apply elem_of_union; by left|].
    intros line Hline. apply elem_of_union. right.
    apply elem_of_list_to_set, list_elem_of_fmap. by exists line.
  - intros t st1. rewrite testing_run.
    destruct (os_popen (world st) _) as [[w' out]|]; [|done].
    intros [= <- <-]. exists (testing_set out).
    split; [apply lookup_snoc|]. apply elem_of_union. by left.
  - intros category packages testing stable archive st0 L C S Hcat Hp Ht Hs HC.
    destruct (process_names STABLE category packages testing stable archive
                st0 L C S Hcat Hp Ht Hs)
      as (o & st' & evs & Hrun & _ & Htrace & Hrep & Harch & _).
    assert (n ∈ C) as HnC by auto.
    exists o, st', evs. split; [done|]. split; [done|].
    split; [by rewrite elem_of_intersection|].
    assert (¬ n ∈ (L ∖ C) ∩ S) as HD.
    { rewrite elem_of_intersection, elem_of_difference. tauto. }
    assert (¬ n ∈ (L ∖ C) ∖ S) as HU.
    { rewrite !elem_of_difference. tauto. }
    split; [done|]. split; [done|]. split.
    + by intros [?|?]%Hrep.
    + by intros ?%Harch.
  - intros w1 out text Hpopen Hfile Hread.
    split; [apply elem_of_union; by left|].
    destruct Hmain as (o & st' & evs & Hrun & Htrace & H1 & H2 & H3).
    rewrite (main_cached_run STABLE st w1 out text) in Hrun by done.
    set (st4 := State _ _ _) in Hrun.
    destruct (reports_begin STABLE (length (heap st) + 2)%nat
                (length (heap st) + 3)%nat (length (heap st))
                (length (heap st) + 1)%nat st4
                (filters_set (os_listdir w1 "rules"))
                (explain_set (os_listdir w1 "explain"))
                (testing_set out) (stable_spec text))
      as (o2 & st2 & rest & Hrun2 & Htrace2).
    { simpl. rewrite lookup_app_r by lia.
      by replace (length (heap st) + 2 - length (heap st))%nat with 2%nat by lia. }
    { simpl. rewrite lookup_app_r by lia.
      by replace (length (heap st) + 3 - length (heap st))%nat with 3%nat by lia. }
    { simpl. by rewrite lookup_app_r, Nat.sub_diag by lia. }
    { simpl. rewrite lookup_app_r by lia.
      by replace (length (heap st) + 1 - length (heap st))%nat with 1%nat by lia. }
    rewrite Hrun2 in Hrun. injection Hrun as <- <-.
    exists o2, st2, evs, rest.
    split; [by rewrite (main_cached_run STABLE st w1 out text)|].
    split; [done|]. split; [|done].
    rewrite Htrace2 in Htrace. simpl in Htrace.
    rewrite <-app_assoc in Htrace. by apply app_inv_head in Htrace.
Qed.

(** C6: for every text of [tools/Packages_amd64], [stable] ends without an
    exception and holds exactly the trimmed texts after the first colon of
    the lines that begin with [Package:]; the other lines add nothing, and
    a text without such a line gives the empty set. *)
Theorem C6_stable_set st text :
  os_read (world st) "tools/Packages_amd64" = Some text →
  ∃ X,
    stable st
    = (Ret (length (heap st)),
       State (heap st ++ [X]) (world st) (trace st)) ∧
    X = stable_spec text ∧
    (∀ x, x ∈ X ↔
       ∃ line, line ∈ Py.readlines text ∧
               Py.startswith line "Package:" = true ∧
               x = Py.strip (after_colon line)) ∧
    (∀ rest, "Package:" +:+ rest ∈ Py.readlines text → Py.strip rest ∈ X) ∧
    ((∀ line, line ∈ Py.readlines text →
              Py.startswith line "Package:" = false) → X = ∅).
Proof.
  intros Hread. exists (stable_spec text).
  rewrite stable_run, Hread. split; [done|]. split; [done|].
  assert (∀ x, x ∈ stable_spec text ↔
            ∃ line, line ∈ Py.readlines text ∧
                    Py.startswith line "Package:" = true ∧
                    x = Py.strip (after_colon line)) as Hspec.
  { intros x. unfold stable_spec.
    rewrite elem_of_list_to_set, list_elem_of_fmap. split.
    - intros (line & -> & [Hp Hl]%list_elem_of_filter). by exists line.
    - intros (line & Hl & Hp & ->). exists line.
      by rewrite list_elem_of_filter. }
  split; [done|]. split.
  - intros rest Hl. apply Hspec. exists ("Package:" +:+ rest).
    split; [done|]. split; [apply startswith_app|reflexivity].
  - intros Hnone. apply set_eq. intros x. rewrite Hspec, elem_of_empty.
    split; [|done]. intros (line & Hl & Hp & _).
    by rewrite (Hnone line Hl) in Hp.
Qed.

(** C7, as the script has it: a [git mv] that was started does not end the
    loop, whatever its exit status: [subprocess.call] returns the status
    and [process] does not look at it.  The archive step of [process]
    follows [archive_step], turn by turn, with the answers of the world it
    has reached.  It ends normally, or with the [OSError] of a destination
    that cannot be made or of a [git] that cannot be started; when it ends
    normally one [git mv] was started for every deprecated name, in the
    order of the loop, and the report of the unknown names follows; when it
    raises, the failing call is its last event and the unknown names are
    not reported. *)
Theorem C7_exit_status_goes_on category packages testing stable archive
    st L C S :
  heap st !! packages = Some L →
  heap st !! testing = Some C →
  heap st !! stable = Some S →
  ∃ o st' moves,
    process STABLE category packages testing stable archive st = (o, st') ∧
    trace st' = trace st
                ++ [header category;
                    deprecated_report STABLE (Py.sorted (iter ((L ∖ C) ∩ S)))]
                ++ moves
                ++ match o with
                   | Ret _ => [unknown_report (Py.sorted (iter ((L ∖ C) ∖ S)))]
                   | Raise _ => []
                   end ∧
    archive_step category archive (world st) (iter ((L ∖ C) ∩ S)) moves
      (world st') o ∧
    (o = Ret tt ∨ o = Raise OSError) ∧
    (o = Ret tt →
     omap git_mv_of moves = Py.join category <$> iter ((L ∖ C) ∩ S)) ∧
    (o = Raise OSError →
     ∃ moves0,
       (moves = moves0 ++ [EMakedirs (destdir archive)] ∧
        ∃ w0, os_isdir w0 (destdir archive) = false ∧
              os_makedirs w0 (destdir archive) = None) ∨
       (∃ item w0,
          item ∈ (L ∖ C) ∩ S ∧
          moves = moves0 ++ [git_mv category archive item None] ∧
          os_run w0 ["git"; "mv"; Py.join category item; destdir archive]
            None = None)) ∧
    (∀ item st0 pre w1 w2 status,
       status ≠ 0 →
       ensure_destination archive (world st0) = (pre, Some w1) →
       os_run w1 ["git"; "mv"; Py.join category item; destdir archive] None
       = Some (w2, status) →
       process_item category archive item st0
       = (Ret tt,
          State (heap st0) w2
            (trace st0 ++ pre ++ [git_mv category archive item (Some status)]))).
Proof.
  intros Hp Ht Hs.
  destruct (process_archive_step STABLE category _ _ _ archive st L C S
              Hp Ht Hs) as (o & st' & moves & Hrun & _ & Htrace & Hstep).
  exists o, st', moves. split; [done|]. split; [done|]. split; [done|].
  split; [|split; [|split]].
  - destruct o as [[]|e]; [by left|].
    apply archive_step_raise in Hstep as [-> _]. by right.
  - intros ->. by eapply archive_step_ret.
  - intros ->.
    apply archive_step_raise in Hstep as (_ & moves0 & Hcase).
    exists moves0.
    destruct Hcase as [Hmk | (item & w0 & Hin & Hmoves & Hgit)]; [by left|].
    right. exists item, w0. split; [|done].
    apply elem_of_elements. by rewrite <-iter_perm.
  - intros item st0 pre w1 w2 status _. apply process_item_moved.
Qed.


(** C9: when the directory of a category cannot be scanned, as when it does
    not exist, the scan returns the empty set without an exception, and
    [process] runs on no local name: it prints its header and two empty
    reports, moves nothing and returns. *)
Theorem C9_missing_directory testing stable st C S :
  heap st !! testing = Some C →
  heap st !! stable = Some S →
  (os_listdir (world st) "rules" = None →
   ∃ st1,
     filters st = (Ret (length (heap st)), st1) ∧
     st1 = State (heap st ++ [∅]) (world st) (trace st) ∧
     process STABLE "rules" (length (heap st)) testing stable STABLE st1
     = (Ret tt,
        State (heap st1 ++ [∅; ∅; ∅]) (world st)
              (trace st ++ [header "rules"; deprecated_report STABLE [];
                            unknown_report []]))) ∧
  (os_listdir (world st) "explain" = None →
   ∃ st1,
     explain st = (Ret (length (heap st)), st1) ∧
     st1 = State (heap st ++ [∅]) (world st) (trace st) ∧
     process STABLE "explain" (length (heap st)) testing stable "explain" st1
     = (Ret tt,
        State (heap st1 ++ [∅; ∅; ∅]) (world st)
              (trace st ++ [header "explain"; deprecated_report STABLE [];
                            unknown_report []]))).
Proof.
  intros Ht Hs.
  assert (∀ category archive,
    process STABLE category (length (heap st)) testing stable archive
      (State (heap st ++ [∅]) (world st) (trace st))
    = (Ret tt,
       State ((heap st ++ [∅]) ++ [∅; ∅; ∅]) (world st)
             (trace st ++ [header category; deprecated_report STABLE [];
                           unknown_report []]))) as Hprocess.
  { intros category archive.
    destruct (process_run STABLE category (length (heap st)) testing stable
                archive (State (heap st ++ [∅]) (world st) (trace st)) ∅ C S)
      as (o & w' & moves & done & Hrun & _ & _ & _ & _ & _ & _ & Hnil);
      [apply lookup_snoc|by apply lookup_snoc_Some..|].
    assert ((∅ ∖ C) ∩ S = (∅ : gset string)) as HD.
    { apply set_eq. intros n.
      rewrite elem_of_intersection, elem_of_difference, elem_of_empty. tauto. }
    assert ((∅ ∖ C) ∖ S = (∅ : gset string)) as HU.
    { apply set_eq. intros n. rewrite !elem_of_difference, elem_of_empty. tauto. }
    assert (∅ ∖ C = (∅ : gset string)) as HL.
    { apply set_eq. intros n. rewrite !elem_of_difference, elem_of_empty. tauto. }
    rewrite HD, HU, HL, iter_empty in *.
    destruct Hnil as (-> & -> & ->); [done|]. exact Hrun. }
  split.
  - intros Hscan. eexists. rewrite filters_run, Hscan.
    split; [done|]. split; [done|]. apply Hprocess.
  - intros Hscan. eexists. rewrite explain_run, Hscan.
    split; [done|]. split; [done|]. apply Hprocess.
Qed.

(** C10: a call of [process] changes no set that was in the store before
    it: it adds three new sets and leaves [testing] and [stable] as they
    were.  So both calls at the end of the script, one after the other,
    classify against the same two reference sets. *)
Theorem C10_reference_sets_unchanged filters explain testing stable
    st Lr Le C S :
  heap st !! filters = Some Lr →
  heap st !! explain = Some Le →
  heap st !! testing = Some C →
  heap st !! stable = Some S →
  (∃ o st1,
     process STABLE "rules" filters testing stable STABLE st = (o, st1) ∧
     heap st1 = heap st ++ [Lr ∖ C; (Lr ∖ C) ∩ S; (Lr ∖ C) ∖ S] ∧
     (∀ l X, heap st !! l = Some X → heap st1 !! l = Some X) ∧
     heap st1 !! testing = Some C ∧
     heap st1 !! stable = Some S) ∧
  (∃ o st' news,
     reports STABLE filters explain testing stable st = (o, st') ∧
     heap st' = heap st ++ news ∧
     (∀ l X, heap st !! l = Some X → heap st' !! l = Some X) ∧
     heap st' !! testing = Some C ∧
     heap st' !! stable = Some S ∧
     (o = Ret tt →
      news = [Lr ∖ C; (Lr ∖ C) ∩ S; (Lr ∖ C) ∖ S;
              Le ∖ C; (Le ∖ C) ∩ S; (Le ∖ C) ∖ S])).
Proof.
  intros Hf He Ht Hs. split.
  - destruct (process_events STABLE "rules" filters testing stable STABLE
                st Lr C S Hf Ht Hs) as (o & st1 & evs & Hrun & Hheap & _).
    exists o, st1. split; [done|]. split; [done|]. rewrite Hheap.
    split; [|split]; intros; by apply lookup_app_l_Some.
  - destruct (reports_run STABLE filters explain testing stable st
                Lr Le C S Hf He Ht Hs)
      as (o & st' & evs & news & Hrun & _ & Hheap & _ & Hnews).
    exists o, st', news. split; [done|]. split; [done|]. rewrite Hheap.
    split; [|split; [|split]]; try done; intros; by apply lookup_app_l_Some.
Qed.

End Claims.
(** ** The scenarios, run *)

(** The first scenario in the bare world: the archive directory is created,
    [git mv] fails with status 128, and the unknown names are reported
    after that. *)
Example scenario_abc_run :
  @process demo demo_os demo_order "bookworm" "rules" 0%nat 1%nat 2%nat
    "bookworm" (State store_abc bare [])
  = (Ret tt,
     State (store_abc ++ [{["b"; "c"]}; {["b"]}; {["c"]}])
           (Demo "" None {["archive/bookworm" := []]} 128)
           [header "rules"; deprecated_report "bookworm" ["b"];
            EMakedirs "archive/bookworm";
            git_mv "rules" "bookworm" "b" (Some 128);
            unknown_report ["c"]]).
Proof. vm_compute. reflexivity. Qed.

Lemma C1_scenarios :
  (store_abc !! 0%nat = Some {["a"; "b"; "c"]} ∧
   store_abc !! 1%nat = Some {["a"]} ∧
   store_abc !! 2%nat = Some {["b"]} ∧
   ∃ o st' moves,
     @process demo demo_os demo_order "bookworm" "rules" 0%nat 1%nat 2%nat
       "bookworm" (State store_abc bare []) = (o, st') ∧
     heap st' = store_abc ++ [{["b"; "c"]}; {["b"]}; {["c"]}] ∧
     trace st' = [header "rules"; deprecated_report "bookworm" ["b"]]
                 ++ moves
                 ++ match o with
                    | Ret _ => [unknown_report ["c"]]
                    | Raise _ => []
                    end) ∧
  (store_ab !! 0%nat = Some {["a"; "b"]} ∧
   store_ab !! 1%nat = Some {["a"]} ∧
   store_ab !! 2%nat = Some ∅ ∧
   ∃ o st' moves,
     @process demo demo_os demo_order "bookworm" "rules" 0%nat 1%nat 2%nat
       "bookworm" (State store_ab bare []) = (o, st') ∧
     heap st' = store_ab ++ [{["b"]}; ∅; {["b"]}] ∧
     trace st' = [header "rules"; deprecated_report "bookworm" []]
                 ++ moves
                 ++ match o with
                    | Ret _ => [unknown_report ["b"]]
                    | Raise _ => []
                    end).
Proof.
  split.
  - split; [reflexivity|]. split; [reflexivity|]. split; [reflexivity|].
    destruct (@C1_process_classification demo demo_os demo_order "bookworm"
                "rules" 0%nat 1%nat 2%nat "bookworm" (State store_abc bare [])
                {["a"; "b"; "c"]} {["a"]} {["b"]} eq_refl eq_refl eq_refl)
      as (o & st' & ds & us & moves & Hrun & Hheap & Htrace & _ & _ & _ & Habc & _).
    destruct (Habc eq_refl eq_refl eq_refl) as (HD & HU & -> & ->).
    exists o, st', moves. split; [exact Hrun|]. split; [|exact Htrace].
    rewrite Hheap, HD, HU. vm_compute. reflexivity.
  - split; [reflexivity|]. split; [reflexivity|]. split; [reflexivity|].
    destruct (@C1_process_classification demo demo_os demo_order "bookworm"
                "rules" 0%nat 1%nat 2%nat "bookworm" (State store_ab bare [])
                {["a"; "b"]} {["a"]} ∅ eq_refl eq_refl eq_refl)
      as (o & st' & ds & us & moves & Hrun & Hheap & Htrace & _ & _ & _ & _ & Hab).
    destruct (Hab eq_refl eq_refl eq_refl) as (HD & HU & -> & ->).
    exists o, st', moves. split; [exact Hrun|]. split; [|exact Htrace].
    rewrite Hheap, HD, HU. vm_compute. reflexivity.
Defined.

Lemma C2_scenario_abc :
  store_abc !! 0%nat = Some {["a"; "b"; "c"]} ∧
  store_abc !! 1%nat = Some {["a"]} ∧
  store_abc !! 2%nat = Some {["b"]} ∧
  ∃ o st' D U,
    @process demo demo_os demo_order "bookworm" "rules" 0%nat 1%nat 2%nat
      "bookworm" (State store_abc bare []) = (o, st') ∧
    heap st' = store_abc ++ [{["a"; "b"; "c"]} ∖ {["a"]}; D; U] ∧
    D ∩ U = ∅ ∧
    D ∪ U ∪ ({["a"; "b"; "c"]} ∩ {["a"]}) = {["a"; "b"; "c"]}.
Proof.
  split; [reflexivity|]. split; [reflexivity|]. split; [reflexivity|].
  destruct (@C2_three_buckets demo demo_os demo_order "bookworm"
              "rules" 0%nat 1%nat 2%nat "bookworm" (State store_abc bare [])
              {["a"; "b"; "c"]} {["a"]} {["b"]} eq_refl eq_refl eq_refl)
    as (o & st' & D & U & Hrun & Hheap & _ & _ & Hdisj & Hcover & _).
  exists o, st', D, U. split; [exact Hrun|]. split; [exact Hheap|].
  split; [exact Hdisj|exact Hcover].
Defined.

(** In the first scenario the file of [b] is moved before the unknown names
    are reported: a report comes after an event of the archive step. *)
Lemma C3_unknown_report_after_move :
  trace (@process demo demo_os demo_order "bookworm" "rules" 0%nat 1%nat 2%nat
           "bookworm" (State store_abc bare [])).2
  = [header "rules"; deprecated_report "bookworm" ["b"];
     EMakedirs "archive/bookworm";
     git_mv "rules" "bookworm" "b" (Some 128);
     unknown_report ["c"]] ∧
  reports_before_moves
    (trace (@process demo demo_os demo_order "bookworm" "rules" 0%nat 1%nat
              2%nat "bookworm" (State store_abc bare [])).2)
  = false.
Proof. split; vm_compute; reflexivity. Qed.

Lemma C3_scenario_abc :
  store_abc !! 0%nat = Some {["a"; "b"; "c"]} ∧
  store_abc !! 1%nat = Some {["a"]} ∧
  store_abc !! 2%nat = Some {["b"]} ∧
  ∃ o st' moves,
    @process demo demo_os demo_order "bookworm" "rules" 0%nat 1%nat 2%nat
      "bookworm" (State store_abc bare []) = (o, st') ∧
    trace st'
    = [header "rules";
       deprecated_report "bookworm"
         (Py.sorted (@iter demo_order (({["a"; "b"; "c"]} ∖ {["a"]}) ∩ {["b"]})))]
      ++ moves
      ++ match o with
         | Ret _ =>
             [unknown_report
                (Py.sorted (@iter demo_order
                              (({["a"; "b"; "c"]} ∖ {["a"]}) ∖ {["b"]})))]
         | Raise _ => []
         end ∧
    Forall (λ e, is_move e = true ∧ is_report e = false) moves.
Proof.
  split; [reflexivity|]. split; [reflexivity|]. split; [reflexivity|].
  destruct (@C3_moves_between_reports demo demo_os demo_order "bookworm"
              "rules" 0%nat 1%nat 2%nat "bookworm" (State store_abc bare [])
              {["a"; "b"; "c"]} {["a"]} {["b"]} eq_refl eq_refl eq_refl)
    as (o & st' & moves & Hrun & Htrace & _ & Hmoves).
  exists o, st', moves. split; [exact Hrun|]. split; [exact Htrace|].
  exact Hmoves.
Defined.

(** The two entries of [explain] in the world [cased]: only [mypkg] is in
    the inventory; it is stable and not current, so it is reported as
    deprecated and moved, and [MyPkg] is not mentioned at all. *)
Example cased_explain_run :
  (e ← @explain demo demo_os;
   @process demo demo_os demo_order "bookworm" "explain" e 0%nat 1%nat
     "explain") (State store_cased cased [])
  = (Ret tt,
     State (store_cased ++ [{["mypkg"]}; {["mypkg"]}; {["mypkg"]}; ∅])
           (Demo "" None
              {["archive/explain" := []; "explain" := ["MyPkg"; "mypkg"];
                "rules" := ["MyPkg"; "mypkg"]]} 128)
           [header "explain"; deprecated_report "bookworm" ["mypkg"];
            EMakedirs "archive/explain";
            git_mv "explain" "explain" "mypkg" (Some 128);
            unknown_report []]).
Proof. vm_compute. reflexivity. Qed.


(** The whole script in the world [raspbian]: [apt-cache] prints [a] only,
    stable has [a] and [b], and [rules] has files for the boot loader, [b]
    and [c].  The boot loader is not mentioned. *)
Example raspbian_run :
  trace (@main demo demo_os demo_order "bookworm" (init raspbian)).2
  = [EPopen ["apt-cache"; "pkgnames"];
     header "rules"; deprecated_report "bookworm" ["b"];
     EMakedirs "archive/bookworm";
     git_mv "rules" "bookworm" "b" (Some 128);
     unknown_report ["c"];
     EPrint [];
     header "explain"; deprecated_report "bookworm" []; unknown_report []].
Proof. vm_compute. reflexivity. Qed.

Lemma C5_scenario_raspbian :
  "raspberrypi-bootloader" ∈ allow_list ∧
  @os_popen demo demo_os raspbian apt_cache = Some (raspbian, "a" +:+ LF) ∧
  @os_isfile demo demo_os raspbian "tools/Packages_amd64" = true ∧
  @os_read demo demo_os raspbian "tools/Packages_amd64" = Some index_text ∧
  "raspberrypi-bootloader" ∈ filters_set (@os_listdir demo demo_os raspbian "rules") ∧
  (∃ C,
     @testing demo demo_os (init raspbian)
     = (Ret 0%nat, State [C] raspbian [EPopen apt_cache]) ∧
     "raspberrypi-bootloader" ∈ C ∧ "a" ∈ C) ∧
  ∃ o st' evs rest,
    @main demo demo_os demo_order "bookworm" (init raspbian) = (o, st') ∧
    trace st' = evs ∧
    evs = EPopen apt_cache :: header "rules"
          :: deprecated_report "bookworm" ["b"] :: rest ∧
    ¬ reported "raspberrypi-bootloader" evs ∧
    ¬ archived "rules" "raspberrypi-bootloader" evs ∧
    ¬ archived "explain" "raspberrypi-bootloader" evs.
Proof.
  assert ("raspberrypi-bootloader" ∈ allow_list) as Hin.
  { apply (bool_decide_unpack _). vm_compute. exact I. }
  split; [exact Hin|]. split; [reflexivity|]. split; [reflexivity|].
  split; [reflexivity|].
  split; [apply (bool_decide_unpack _); vm_compute; exact I|].
  destruct (@C5_allow_list_current demo demo_os demo_order "bookworm"
              "raspberrypi-bootloader" (init raspbian) Hin)
    as (Htesting & _ & _ & _ & Hcached).
  split.
  - destruct (Htesting raspbian ("a" +:+ LF) eq_refl)
      as (C & Hrun & HnC & Hlines).
    exists C. split; [exact Hrun|]. split; [exact HnC|].
    apply (Hlines ("a" +:+ LF)). apply elem_of_cons. by left.
  - destruct (Hcached raspbian ("a" +:+ LF) index_text eq_refl eq_refl eq_refl)
      as (_ & o & st' & evs & rest & Hrun & Htrace & Hevs & H1 & H2 & H3).
    exists o, st', evs, rest. split; [exact Hrun|]. split; [exact Htrace|].
    split; [|split; [exact H1|split; [exact H2|exact H3]]].
    rewrite Hevs. vm_compute. reflexivity.
Defined.

(** The index of the world [raspbian] has two lines that begin with the
    tag; the colon in a version and the tag inside a description do not
    count. *)
Example index_text_stable : stable_spec index_text = {["a"; "b"]}.
Proof. vm_compute. reflexivity. Qed.

Lemma C6_scenario_index :
  os_read (world (init raspbian)) "tools/Packages_amd64" = Some index_text ∧
  ∃ X,
    @stable demo demo_os (init raspbian)
    = (Ret 0%nat, State [X] raspbian []) ∧
    X = {["a"; "b"]} ∧
    (∀ x, x ∈ X ↔
       ∃ line, line ∈ Py.readlines index_text ∧
               Py.startswith line "Package:" = true ∧
               x = Py.strip (after_colon line)).
Proof.
  split; [reflexivity|].
  destruct (@C6_stable_set demo demo_os (init raspbian) index_text eq_refl)
    as (X & Hrun & HX & Hspec & _).
  exists X. split; [exact Hrun|]. split; [|exact Hspec].
  rewrite HX. vm_compute. reflexivity.
Defined.

(** In the bare world every [git mv] fails with status 128; for three
    deprecated names all three moves are started and the report of the
    unknown names follows. *)
Example failed_moves_run :
  @process demo demo_os demo_order "bookworm" "rules" 0%nat 1%nat 2%nat
    "bookworm" (State store_moves bare [])
  = (Ret tt,
     State (store_moves ++ [{["a"; "b"; "c"; "d"]}; {["a"; "b"; "c"]}; {["d"]}])
           (Demo "" None {["archive/bookworm" := []]} 128)
           [header "rules"; deprecated_report "bookworm" ["a"; "b"; "c"];
            EMakedirs "archive/bookworm";
            git_mv "rules" "bookworm" "c" (Some 128);
            git_mv "rules" "bookworm" "a" (Some 128);
            git_mv "rules" "bookworm" "b" (Some 128);
            unknown_report ["d"]]).
Proof. vm_compute. reflexivity. Qed.

(** Where [git] cannot be started the first move raises [OSError]: of the
    three deprecated names one move is tried, the other two are not, and
    the unknown names are not reported. *)
Lemma C7_git_not_started_aborts :
  @process demo no_git_os demo_order "bookworm" "rules" 0%nat 1%nat 2%nat
    "bookworm" (State store_moves bare [])
  = (Raise OSError,
     State (store_moves ++ [{["a"; "b"; "c"; "d"]}; {["a"; "b"; "c"]}; {["d"]}])
           (Demo "" None {["archive/bookworm" := []]} 128)
           [header "rules"; deprecated_report "bookworm" ["a"; "b"; "c"];
            EMakedirs "archive/bookworm";
            git_mv "rules" "bookworm" "c" None]) ∧
  omap git_mv_of
    (trace (@process demo no_git_os demo_order "bookworm" "rules" 0%nat 1%nat
              2%nat "bookworm" (State store_moves bare [])).2)
  = ["rules/c"] ∧
  last (trace (@process demo no_git_os demo_order "bookworm" "rules" 0%nat
                 1%nat 2%nat "bookworm" (State store_moves bare [])).2)
  = Some (git_mv "rules" "bookworm" "c" None).
Proof. repeat split; vm_compute; reflexivity. Qed.

Lemma C7_scenario_failing_git :
  store_moves !! 0%nat = Some {["a"; "b"; "c"; "d"]} ∧
  store_moves !! 1%nat = Some ∅ ∧
  store_moves !! 2%nat = Some {["a"; "b"; "c"]} ∧
  ∃ st' moves,
    @process demo demo_os demo_order "bookworm" "rules" 0%nat 1%nat 2%nat
      "bookworm" (State store_moves bare []) = (Ret tt, st') ∧
    moves = [EMakedirs "archive/bookworm";
             git_mv "rules" "bookworm" "c" (Some 128);
             git_mv "rules" "bookworm" "a" (Some 128);
             git_mv "rules" "bookworm" "b" (Some 128)] ∧
    @archive_step demo demo_os "rules" "bookworm" bare ["c"; "a"; "b"] moves
      (world st') (Ret tt) ∧
    omap git_mv_of moves = ["rules/c"; "rules/a"; "rules/b"] ∧
    last (trace st') = Some (unknown_report ["d"]).
Proof.
  split; [reflexivity|]. split; [reflexivity|]. split; [reflexivity|].
  destruct (@C7_exit_status_goes_on demo demo_os demo_order "bookworm"
              "rules" 0%nat 1%nat 2%nat "bookworm" (State store_moves bare [])
              {["a"; "b"; "c"; "d"]} ∅ {["a"; "b"; "c"]}
              eq_refl eq_refl eq_refl)
    as (o & st' & moves & Hrun & Htrace & Hstep & _ & Hret & _).
  rewrite failed_moves_run in Hrun. injection Hrun as <- <-.
  assert (moves = [EMakedirs "archive/bookworm";
                   git_mv "rules" "bookworm" "c" (Some 128);
                   git_mv "rules" "bookworm" "a" (Some 128);
                   git_mv "rules" "bookworm" "b" (Some 128)]) as Hmoves.
  { apply (f_equal (drop 2)) in Htrace.
    assert ([EMakedirs "archive/bookworm";
             git_mv "rules" "bookworm" "c" (Some 128);
             git_mv "rules" "bookworm" "a" (Some 128);
             git_mv "rules" "bookworm" "b" (Some 128)]
            ++ [unknown_report ["d"]]
            = moves
              ++ [unknown_report
                    (Py.sorted
                       (@iter demo_order
                          (({["a"; "b"; "c"; "d"]} ∖ ∅) ∖ {["a"; "b"; "c"]})))])
      as Htail by exact Htrace.
    by apply app_inj_2 in Htail as [<- _]. }
  eexists _, moves. split; [exact failed_moves_run|]. split; [exact Hmoves|].
  split; [exact Hstep|]. split.
  - rewrite Hmoves. reflexivity.
  - reflexivity.
Defined.

(** Enumerating the sets in the reverse order changes the order of the
    moves and leaves both reports as they are. *)
Example reverse_order_run :
  trace (@process demo demo_os demo_reverse "bookworm" "rules" 0%nat 1%nat
           2%nat "bookworm" (State store_moves bare [])).2
  = [header "rules"; deprecated_report "bookworm" ["a"; "b"; "c"];
     EMakedirs "archive/bookworm";
     git_mv "rules" "bookworm" "b" (Some 128);
     git_mv "rules" "bookworm" "a" (Some 128);
     git_mv "rules" "bookworm" "c" (Some 128);
     unknown_report ["d"]].
Proof. vm_compute. reflexivity. Qed.


Lemma C9_scenario_bare :
  store_ab !! 1%nat = Some {["a"]} ∧
  store_ab !! 2%nat = Some ∅ ∧
  os_listdir (world (State store_ab bare [])) "rules" = None ∧
  os_listdir (world (State store_ab bare [])) "explain" = None ∧
  (∃ st1,
     @filters demo demo_os (State store_ab bare []) = (Ret 3%nat, st1) ∧
     st1 = State (store_ab ++ [∅]) bare [] ∧
     @process demo demo_os demo_order "bookworm" "rules" 3%nat 1%nat 2%nat
       "bookworm" st1
     = (Ret tt,
        State (heap st1 ++ [∅; ∅; ∅]) bare
              [header "rules"; deprecated_report "bookworm" [];
               unknown_report []])) ∧
  (∃ st1,
     @explain demo demo_os (State store_ab bare []) = (Ret 3%nat, st1) ∧
     st1 = State (store_ab ++ [∅]) bare [] ∧
     @process demo demo_os demo_order "bookworm" "explain" 3%nat 1%nat 2%nat
       "explain" st1
     = (Ret tt,
        State (heap st1 ++ [∅; ∅; ∅]) bare
              [header "explain"; deprecated_report "bookworm" [];
               unknown_report []])).
Proof.
  split; [reflexivity|]. split; [reflexivity|]. split; [reflexivity|].
  split; [reflexivity|].
  destruct (@C9_missing_directory demo demo_os demo_order "bookworm"
              1%nat 2%nat (State store_ab bare []) {["a"]} ∅ eq_refl eq_refl)
    as [Hrules Hexplain].
  split; [exact (Hrules eq_refl)|exact (Hexplain eq_refl)].
Defined.

Lemma C10_scenario_two_categories :
  store_two !! 0%nat = Some {["a"; "b"; "c"]} ∧
  store_two !! 1%nat = Some {["a"; "b"; "d"]} ∧
  store_two !! 2%nat = Some {["a"]} ∧
  store_two !! 3%nat = Some {["b"]} ∧
  (∃ o st1,
     @process demo demo_os demo_order "bookworm" "rules" 0%nat 2%nat 3%nat
       "bookworm" (State store_two bare []) = (o, st1) ∧
     heap st1 !! 2%nat = Some {["a"]} ∧
     heap st1 !! 3%nat = Some {["b"]}) ∧
  (∃ o st',
     @reports demo demo_os demo_order "bookworm" 0%nat 1%nat 2%nat 3%nat
       (State store_two bare []) = (o, st') ∧
     heap st' !! 2%nat = Some {["a"]} ∧
     heap st' !! 3%nat = Some {["b"]} ∧
     (o = Ret tt →
      heap st' = store_two ++ [{["b"; "c"]}; {["b"]}; {["c"]};
                               {["b"; "d"]}; {["b"]}; {["d"]}])).
Proof.
  split; [reflexivity|]. split; [reflexivity|]. split; [reflexivity|].
  split; [reflexivity|].
  destruct (@C10_reference_sets_unchanged demo demo_os demo_order "bookworm"
              0%nat 1%nat 2%nat 3%nat (State store_two bare [])
              {["a"; "b"; "c"]} {["a"; "b"; "d"]} {["a"]} {["b"]}
              eq_refl eq_refl eq_refl eq_refl)
    as [(o1 & st1 & Hrun1 & _ & _ & Ht1 & Hs1)
        (o & st' & news & Hrun & Hheap & _ & Ht & Hs & Hnews)].
  split.
  - exists o1, st1. split; [exact Hrun1|]. split; [exact Ht1|exact Hs1].
  - exists o, st'. split; [exact Hrun|]. split; [exact Ht|].
    split; [exact Hs|]. intros Ho. rewrite Hheap, (Hnews Ho).
    vm_compute. reflexivity.
Defined.

(** Unlike the operators of [process], [add] changes the set it is called
    on: the store can tell a new set from a changed one. *)
Example set_add_changes_the_set :
  heap (@set_add demo 1%nat "z" (State store_abc bare [])).2
  = [{["a"; "b"; "c"]}; {["a"; "z"]}; {["b"]}].
Proof. vm_compute. reflexivity. Qed.

(** The whole script on equal terms: both categories are classified against
    the same two sets. *)
Example cased_main_run :
  trace (@main demo demo_os demo_order "bookworm"
           (init (Demo "" (Some index_text) (demo_dirs cased) 0))).2
  = [EPopen ["apt-cache"; "pkgnames"];
     header "rules"; deprecated_report "bookworm" []; 
     unknown_report ["MyPkg"; "mypkg"];
     EPrint [];
     header "explain"; deprecated_report "bookworm" [];
     unknown_report ["mypkg"]].
Proof. vm_compute. reflexivity. Qed.
(** ** Further properties *)


(** ** Further properties of [process] *)

Section ProcessMore.
Context {World : Type} {os : OS World} {order : SetOrder}.
Variable STABLE : string.
Implicit Types (st : @state World) (X Y L C S D U : gset string).

(** The first turn of the loop when the destination cannot be made. *)
Lemma destination_not_made_run category packages testing stable archive
    st L C S n :
  heap st !! packages = Some L →
  heap st !! testing = Some C →
  heap st !! stable = Some S →
  n ∈ (L ∖ C) ∩ S →
  os_isdir (world st) (destdir archive) = false →
  os_makedirs (world st) (destdir archive) = None →
  process STABLE category packages testing stable archive st
  = (Raise OSError,
     State (heap st ++ [L ∖ C; (L ∖ C) ∩ S; (L ∖ C) ∖ S]) (world st)
           (trace st ++ [header category;
                         deprecated_report STABLE
                           (Py.sorted (iter ((L ∖ C) ∩ S)));
                         EMakedirs (destdir archive)])).
Proof.
  intros Hp Ht Hs Hn Hdir Hmk.
  rewrite (process_prologue STABLE category _ _ _ archive st L C S) by done.
  destruct (iter_nonempty _ _ Hn) as (x & rest & ->).
  rewrite bind_run. simpl. rewrite bind_run, process_item_run. simpl.
  rewrite Hdir, Hmk. by rewrite <-app_assoc.
Qed.

(** X1: when no local name is deprecated, [process] prints its header, an
    empty list of deprecated names and the unknown names, and returns: it
    asks nothing of the file system, starts no program and leaves the world
    as it was, so it cannot raise. *)
Theorem X1_nothing_deprecated category packages testing stable archive
    st L C S :
  heap st !! packages = Some L →
  heap st !! testing = Some C →
  heap st !! stable = Some S →
  (L ∖ C) ∩ S = ∅ →
  process STABLE category packages testing stable archive st
  = (Ret tt,
     State (heap st ++ [L ∖ C; ∅; (L ∖ C) ∖ S]) (world st)
           (trace st ++ [header category; deprecated_report STABLE [];
                         unknown_report (Py.sorted (iter ((L ∖ C) ∖ S)))])).
Proof.
  intros Hp Ht Hs HD.
  destruct (process_run STABLE category _ _ _ archive st L C S Hp Ht Hs)
    as (o & w' & moves & done & Hrun & _ & _ & _ & _ & _ & _ & Hnil).
  rewrite HD, iter_empty in *.
  destruct Hnil as (-> & -> & ->); [done|]. exact Hrun.
Qed.

(** X2: when a name is deprecated and the destination is neither there nor
    can be made, [process] raises [OSError] from [os.makedirs] in the first
    turn of the loop: it has printed the header and the deprecated names,
    it starts no [git mv] and does not print the unknown names. *)
Theorem X2_destination_not_made category packages testing stable archive
    st L C S n :
  heap st !! packages = Some L →
  heap st !! testing = Some C →
  heap st !! stable = Some S →
  n ∈ (L ∖ C) ∩ S →
  os_isdir (world st) (destdir archive) = false →
  os_makedirs (world st) (destdir archive) = None →
  process STABLE category packages testing stable archive st
  = (Raise OSError,
     State (heap st ++ [L ∖ C; (L ∖ C) ∩ S; (L ∖ C) ∖ S]) (world st)
           (trace st ++ [header category;
                         deprecated_report STABLE
                           (Py.sorted (iter ((L ∖ C) ∩ S)));
                         EMakedirs (destdir archive)])).
Proof. apply destination_not_made_run. Qed.

(** X3: on a file system that keeps its directories, one call of [process]
    makes the destination at most once, and only before its first
    [git mv]; it does not make it when it is there at the start.  All other
    events of the archive step are [git mv]. *)
Theorem X3_destination_made_once category packages testing stable archive
    st L C S :
  heap st !! packages = Some L →
  heap st !! testing = Some C →
  heap st !! stable = Some S →
  keeps_directories →
  ∃ o st' pre mvs,
    process STABLE category packages testing stable archive st = (o, st') ∧
    trace st' = trace st
                ++ [header category;
                    deprecated_report STABLE (Py.sorted (iter ((L ∖ C) ∩ S)))]
                ++ pre ++ mvs
                ++ match o with
                   | Ret _ => [unknown_report (Py.sorted (iter ((L ∖ C) ∖ S)))]
                   | Raise _ => []
                   end ∧
    (pre = [] ∨ pre = [EMakedirs (destdir archive)]) ∧
    Forall (λ e, is_Some (git_mv_of e)) mvs ∧
    (os_isdir (world st) (destdir archive) = true → pre = []) ∧
    ((L ∖ C) ∩ S = ∅ → pre = []).
Proof.
  intros Hp Ht Hs Hfs.
  rewrite (process_prologue STABLE category _ _ _ archive st L C S) by done.
  set (st0 := State _ _ _). rewrite bind_run.
  pose proof (archive_loop_heap category archive (iter ((L ∖ C) ∩ S)) st0)
    as Hheap.
  destruct (archive_loop_once category archive (iter ((L ∖ C) ∩ S)) st0 Hfs)
    as (o & st' & pre & mvs & Hloop & Htrace & Hpre & Hmvs & Hdir & Hnil).
  rewrite Hloop in *. simpl in Hheap.
  destruct o as [[]|e].
  - rewrite bind_run, (sorted_run _ ((L ∖ C) ∖ S)).
    2: { rewrite Hheap. simpl.
         replace (length (heap st) + 2)%nat
           with (length (heap st ++ [L ∖ C; (L ∖ C) ∩ S]))
           by (rewrite length_app; simpl; lia).
         replace (heap st ++ [L ∖ C; (L ∖ C) ∩ S; (L ∖ C) ∖ S])
           with ((heap st ++ [L ∖ C; (L ∖ C) ∩ S]) ++ [(L ∖ C) ∖ S])
           by (by rewrite <-app_assoc).
         apply lookup_snoc. }
    run_prims. simpl.
    eexists (Ret tt), _, pre, mvs. split; [done|]. simpl.
    split; [rewrite Htrace; simpl; by rewrite <-!app_assoc|].
    split; [done|]. split; [done|]. split; [done|].
    intros HD. apply Hnil. by rewrite HD, iter_empty.
  - exists (Raise e), st', pre, mvs. split; [done|].
    split; [rewrite Htrace; simpl; by rewrite <-!app_assoc, app_nil_r|].
    split; [done|]. split; [done|]. split; [done|].
    intros HD. apply Hnil. by rewrite HD, iter_empty.
Qed.

(** X4: an [OSError] in the archive step of [rules] ends lines 56-58: with
    a deprecated name in [rules] and a destination that is neither there
    nor can be made, neither the empty line nor anything of [explain] is
    printed, and [explain] is not classified. *)
Theorem X4_rules_failure_skips_explain filters explain testing stable
    st Lr C S n :
  heap st !! filters = Some Lr →
  heap st !! testing = Some C →
  heap st !! stable = Some S →
  n ∈ (Lr ∖ C) ∩ S →
  os_isdir (world st) (destdir STABLE) = false →
  os_makedirs (world st) (destdir STABLE) = None →
  reports STABLE filters explain testing stable st
  = (Raise OSError,
     State (heap st ++ [Lr ∖ C; (Lr ∖ C) ∩ S; (Lr ∖ C) ∖ S]) (world st)
           (trace st ++ [header "rules";
                         deprecated_report STABLE
                           (Py.sorted (iter ((Lr ∖ C) ∩ S)));
                         EMakedirs (destdir STABLE)])).
Proof.
  intros Hf Ht Hs Hn Hdir Hmk. unfold reports.
  by rewrite bind_run,
    (destination_not_made_run "rules" _ _ _ STABLE st Lr C S n).
Qed.

End ProcessMore.

(** ** Further properties: lines and names *)

Lemma rstrip_idem s : Py.rstrip (Py.rstrip s) = Py.rstrip s.
Proof.
  induction s as [|c s IH]; [done|]. simpl.
  destruct (Py.rstrip s) as [|c' t] eqn:Ht.
  - destruct (Py.isspace c) eqn:Hc; [done|]. simpl. by rewrite Hc.
  - simpl in *. by rewrite IH.
Qed.

Lemma lstrip_rstrip s :
  Py.lstrip s = s → Py.lstrip (Py.rstrip s) = Py.rstrip s.
Proof.
  destruct s as [|c s]; [done|]. simpl.
  destruct (Py.isspace c) eqn:Hc.
  - intros Heq. exfalso.
    assert (∀ t, String.length (Py.lstrip t) ≤ String.length t)%nat as Hlen.
    { induction t as [|a t IH]; simpl; [done|].
      destruct (Py.isspace a); simpl; lia. }
    specialize (Hlen s). rewrite Heq in Hlen. simpl in Hlen. lia.
  - intros _. destruct (Py.rstrip s); simpl; by rewrite Hc.
Qed.

Lemma lstrip_idem s : Py.lstrip (Py.lstrip s) = Py.lstrip s.
Proof.
  induction s as [|c s IH]; [done|]. simpl.
  destruct (Py.isspace c) eqn:Hc; [done|]. simpl. by rewrite Hc.
Qed.

Lemma strip_idem s : Py.strip (Py.strip s) = Py.strip s.
Proof.
  unfold Py.strip. rewrite (lstrip_rstrip (Py.lstrip s)) by apply lstrip_idem.
  apply rstrip_idem.
Qed.

Lemma rstrip_snoc_space s c :
  Py.isspace c = true → Py.rstrip (s +:+ String c "") = Py.rstrip s.
Proof.
  intros Hc. induction s as [|a s IH].
  - change (Py.rstrip (String c "") = ""). simpl. by rewrite Hc.
  - change (Py.rstrip (String a (s +:+ String c "")) = Py.rstrip (String a s)).
    simpl. by rewrite IH.
Qed.

Lemma readlines_line n rest :
  no_break n = true →
  Py.readlines (n +:+ LF +:+ rest) = (n +:+ LF) :: Py.readlines rest.
Proof.
  induction n as [|c n IH]; [done|].
  intros [[Hlf Hcr]%andb_prop Hn]%andb_prop.
  change (Py.readlines (String c (n +:+ LF +:+ rest))
          = String c (n +:+ LF) :: Py.readlines rest).
  simpl. rewrite IH by done.
  apply negb_true_iff in Hlf, Hcr. by rewrite Hlf, Hcr.
Qed.

Lemma readlines_unlines names :
  Forall (λ n, no_break n = true) names →
  Py.readlines (unlines names) = (λ n, n +:+ LF) <$> names.
Proof.
  induction 1 as [|n names Hn _ IH]; [done|].
  simpl. by rewrite readlines_line, IH.
Qed.

(** ** Further properties of the blocks and of the whole script *)

Section ScriptMore.
Context {World : Type} {os : OS World} {order : SetOrder}.
Variable STABLE : string.
Implicit Types (st : @state World) (X Y L C S D U : gset string).

(** Lines 56-58 end normally or with the [OSError] of an archive step. *)
Lemma reports_outcome filters explain testing stable st Lr Le C S :
  heap st !! filters = Some Lr →
  heap st !! explain = Some Le →
  heap st !! testing = Some C →
  heap st !! stable = Some S →
  (reports STABLE filters explain testing stable st).1 = Ret tt ∨
  (reports STABLE filters explain testing stable st).1 = Raise OSError.
Proof.
  intros Hf He Ht Hs. unfold reports. rewrite bind_run.
  destruct (process_run STABLE "rules" _ _ _ STABLE st Lr C S Hf Ht Hs)
    as (o1 & w1 & moves1 & done1 & -> & [-> | ->] & _); [|by right].
  rewrite bind_run. run_prims; simpl.
  set (st2 := State _ _ _).
  destruct (process_run STABLE "explain" explain testing stable "explain"
              st2 Le C S)
    as (o2 & w2 & moves2 & done2 & -> & Ho2 & _);
    [by apply lookup_app_l_Some..|].
  done.
Qed.

Lemma lookup_app_plus {A} (h l : list A) i :
  (h ++ l) !! (length h + i)%nat = l !! i.
Proof.
  rewrite lookup_app_r by lia. f_equal. lia.
Qed.

(** After a successful [download] the script ends normally or with an
    [OSError]. *)
Lemma main_tail_outcome testing st C :
  heap st !! testing = Some C →
  ((stable ← stable; filters ← filters; explain ← explain;
    reports STABLE filters explain testing stable) st).1 = Ret tt ∨
  ((stable ← stable; filters ← filters; explain ← explain;
    reports STABLE filters explain testing stable) st).1 = Raise OSError.
Proof.
  intros Ht. rewrite bind_run, stable_run.
  destruct (os_read (world st) _) as [text|]; [|by right].
  rewrite bind_run, filters_run. simpl. rewrite bind_run, explain_run. simpl.
  eapply reports_outcome.
  - apply lookup_snoc_Some, lookup_snoc.
  - apply lookup_snoc.
  - by do 3 apply lookup_snoc_Some.
  - do 2 apply lookup_snoc_Some. apply lookup_snoc.
Qed.

(** X5: [download] does nothing when the index is cached.  Otherwise it
    runs [ben download] in [tools]: a status other than 0 raises
    [CalledProcessError] with that status and [tools/Sources] is left
    alone; after status 0 it removes [tools/Sources], and raises [OSError]
    when that fails or when [ben] cannot be started.  It never changes a
    set. *)
Theorem X5_download st :
  (os_isfile (world st) "tools/Packages_amd64" = true →
   download st = (Ret tt, st)) ∧
  (os_isfile (world st) "tools/Packages_amd64" = false →
   (os_run (world st) ben_download (Some "tools") = None →
    download st
    = (Raise OSError,
       State (heap st) (world st)
         (trace st ++ [ERun ben_download (Some "tools") None]))) ∧
   (∀ w1 status,
      os_run (world st) ben_download (Some "tools") = Some (w1, status) →
      status ≠ 0 →
      download st
      = (Raise (CalledProcessError status),
         State (heap st) w1
           (trace st ++ [ERun ben_download (Some "tools") (Some status)]))) ∧
   (∀ w1,
      os_run (world st) ben_download (Some "tools") = Some (w1, 0) →
      (∀ w2, os_unlink w1 "tools/Sources" = Some w2 →
         download st
         = (Ret tt,
            State (heap st) w2
              (trace st ++ [ERun ben_download (Some "tools") (Some 0);
                            EUnlink "tools/Sources"]))) ∧
      (os_unlink w1 "tools/Sources" = None →
         download st
         = (Raise OSError,
            State (heap st) w1
              (trace st ++ [ERun ben_download (Some "tools") (Some 0);
                            EUnlink "tools/Sources"]))))).
Proof.
  rewrite download_exact. split; [by intros ->|]. intros ->.
  split; [by intros ->|]. split.
  - intros w1 status -> Hstatus. by rewrite bool_decide_eq_false_2.
  - intros w1 ->. simpl. split; [by intros w2 ->|by intros ->].
Qed.

(** X6: the script ends with [CalledProcessError] only when the index is
    not cached and [ben download] exits with a status other than 0; it has
    then started [apt-cache] and [ben] and done nothing else: no line is
    printed, no file moved or removed, the index is not read. *)
Theorem X6_failed_download_is_fatal st st' status :
  main STABLE st = (Raise (CalledProcessError status), st') →
  status ≠ 0 ∧
  ∃ w1 out w2,
    os_popen (world st) apt_cache = Some (w1, out) ∧
    os_isfile w1 "tools/Packages_amd64" = false ∧
    os_run w1 ben_download (Some "tools") = Some (w2, status) ∧
    st' = State (heap st ++ [testing_set out]) w2
            (trace st ++ [EPopen apt_cache;
                          ERun ben_download (Some "tools") (Some status)]).
Proof.
  unfold main. rewrite bind_run, testing_run. fold apt_cache.
  destruct (os_popen (world st) apt_cache) as [[w1 out]|]; [|done].
  set (st1 := State _ _ _).
  assert (∀ st2, heap st2 = heap st1 →
    ((stable ← stable; filters ← filters; explain ← explain;
      reports STABLE filters explain (length (heap st)) stable) st2)
    ≠ (Raise (CalledProcessError status), st')) as Htail.
  { intros st2 Hheap Heq.
    destruct (main_tail_outcome (length (heap st)) st2 (testing_set out))
      as [Ho | Ho]; [rewrite Hheap; apply lookup_snoc|..];
      by rewrite Heq in Ho. }
  rewrite bind_run, download_exact.
  destruct (os_isfile (world st1) _) eqn:Hfile.
  { intros Heq. by apply Htail in Heq. }
  destruct (os_run (world st1) _ _) as [[w2 rc]|] eqn:Hrun; [|done].
  destruct (bool_decide (rc = 0)) eqn:Hrc.
  - destruct (os_unlink w2 _) as [w3|]; [|done].
    intros Heq. by apply Htail in Heq.
  - intros [= <- <-]. apply bool_decide_eq_false_1 in Hrc.
    split; [done|]. exists w1, out, w2. unfold st1.
    by rewrite <-app_assoc.
Qed.

(** X7: when [apt-cache] prints [out] and the index is cached with the text
    [text], the script is lines 56-58 run on four sets built before any
    file is moved: the fixed names and the trimmed lines of [out], the
    [Package:] fields of [text], and the scans of [rules] and of [explain].
    It ends normally or with the [OSError] of an archive step, and when it
    ends normally the store holds these four sets and the three sets of
    each category. *)
Theorem X7_script_cached st w1 out text :
  os_popen (world st) apt_cache = Some (w1, out) →
  os_isfile w1 "tools/Packages_amd64" = true →
  os_read w1 "tools/Packages_amd64" = Some text →
  let C := testing_set out in
  let S := stable_spec text in
  let Lr := filters_set (os_listdir w1 "rules") in
  let Le := explain_set (os_listdir w1 "explain") in
  main STABLE st
  = reports STABLE (length (heap st) + 2)%nat (length (heap st) + 3)%nat
      (length (heap st)) (length (heap st) + 1)%nat
      (State (heap st ++ [C; S; Lr; Le]) w1 (trace st ++ [EPopen apt_cache])) ∧
  ((main STABLE st).1 = Ret tt ∨ (main STABLE st).1 = Raise OSError) ∧
  ((main STABLE st).1 = Ret tt →
   heap (main STABLE st).2
   = heap st ++ [C; S; Lr; Le;
                 Lr ∖ C; (Lr ∖ C) ∩ S; (Lr ∖ C) ∖ S;
                 Le ∖ C; (Le ∖ C) ∩ S; (Le ∖ C) ∖ S]).
Proof.
  intros Hpopen Hfile Hread C S Lr Le.
  rewrite (main_cached_run STABLE st w1 out text) by done.
  fold C S Lr Le. set (st4 := State _ _ _).
  assert (heap st4 !! (length (heap st) + 2)%nat = Some Lr) as Hf.
  { simpl. by rewrite lookup_app_plus. }
  assert (heap st4 !! (length (heap st) + 3)%nat = Some Le) as He.
  { simpl. by rewrite lookup_app_plus. }
  assert (heap st4 !! length (heap st) = Some C) as Ht.
  { simpl. by rewrite lookup_app_r, Nat.sub_diag by lia. }
  assert (heap st4 !! (length (heap st) + 1)%nat = Some S) as Hs.
  { simpl. by rewrite lookup_app_plus. }
  split; [done|]. split; [by eapply reports_outcome|].
  destruct (reports_run STABLE _ _ _ _ st4 Lr Le C S Hf He Ht Hs)
    as (o & st' & evs & news & -> & _ & Hheap & _ & Hnews).
  simpl. intros ->. rewrite Hheap, Hnews by done. simpl.
  by rewrite <-app_assoc.
Qed.

(** X8: when [apt-cache] prints names one per line, each ended by a line
    feed, [testing] holds exactly these names and the three fixed names. *)
Theorem X8_testing_of_names st w' names :
  os_popen (world st) apt_cache = Some (w', unlines names) →
  Forall (λ n, no_break n = true ∧ Py.rstrip n = n) names →
  testing st
  = (Ret (length (heap st)),
     State (heap st ++ [allow_list ∪ list_to_set names]) w'
           (trace st ++ [EPopen apt_cache])).
Proof.
  intros Hpopen Hnames. rewrite testing_run. fold apt_cache.
  rewrite Hpopen. unfold testing_set.
  rewrite readlines_unlines
    by (eapply Forall_impl; [exact Hnames|]; by intros n [? _]).
  assert (Py.rstrip <$> ((λ n, n +:+ LF) <$> names) = names) as ->; [|done].
  clear Hpopen. induction Hnames as [|n names [_ Hn] _ IH]; [done|].
  rewrite !fmap_cons, IH. f_equal. unfold LF.
  by rewrite rstrip_snoc_space.
Qed.

(** X9: no name in [testing] ends with white space: the line feed that ends
    each line of [apt-cache] is not part of the name. *)
Theorem X9_testing_names_end_clean st t st1 :
  testing st = (Ret t, st1) →
  ∃ C, heap st1 !! t = Some C ∧ ∀ n, n ∈ C → Py.rstrip n = n.
Proof.
  rewrite testing_run.
  destruct (os_popen (world st) _) as [[w' out]|]; [|done].
  intros [= <- <-]. exists (testing_set out). split; [apply lookup_snoc|].
  intros n [Hn | Hn]%elem_of_union.
  - by apply allow_list_names in Hn as [-> | [-> | ->]].
  - apply elem_of_list_to_set, list_elem_of_fmap in Hn as (line & -> & _).
    apply rstrip_idem.
Qed.

(** X10: no name in [stable] begins or ends with white space, whatever the
    spacing around the value of the [Package:] field. *)
Theorem X10_stable_names_trimmed st s st1 :
  stable st = (Ret s, st1) →
  ∃ X, heap st1 !! s = Some X ∧ ∀ n, n ∈ X → Py.strip n = n.
Proof.
  rewrite stable_run.
  destruct (os_read (world st) _) as [text|]; [|done].
  intros [= <- <-]. exists (stable_spec text). split; [apply lookup_snoc|].
  intros n Hn.
  apply elem_of_list_to_set, list_elem_of_fmap in Hn as (line & -> & _).
  apply strip_idem.
Qed.

(** X11: an entry whose name begins with a dot is in neither inventory:
    [glob] does not return it, so no report of its category lists it and
    its file is not moved. *)
Theorem X11_hidden_entries_skipped testing stable st C S n :
  heap st !! testing = Some C →
  heap st !! stable = Some S →
  Py.startswith n "." = true →
  (∀ names, os_listdir (world st) "rules" = Some names →
     Forall (λ m, no_slash m = true) names →
     ∃ f Lr st1 o st' evs,
       filters st = (Ret f, st1) ∧
       heap st1 !! f = Some Lr ∧
       ¬ n ∈ Lr ∧
       process STABLE "rules" f testing stable STABLE st1 = (o, st') ∧
       trace st' = trace st ++ evs ∧
       ¬ reported n evs ∧ ¬ archived "rules" n evs) ∧
  (∀ names, os_listdir (world st) "explain" = Some names →
     Forall (λ m, no_slash m = true) names →
     ∃ e Le st1 o st' evs,
       explain st = (Ret e, st1) ∧
       heap st1 !! e = Some Le ∧
       ¬ n ∈ Le ∧
       process STABLE "explain" e testing stable "explain" st1 = (o, st') ∧
       trace st' = trace st ++ evs ∧
       ¬ reported n evs ∧ ¬ archived "explain" n evs).
Proof.
  intros Ht Hs Hdot. split.
  - intros names Hscan Hnames. rewrite filters_run, Hscan.
    set (Lr := filters_set _). set (st1 := State _ _ _).
    assert (¬ n ∈ Lr) as Hn.
    { intros [_ Hvis]%filters_set_entries; [|done]. congruence. }
    destruct (process_names STABLE "rules" (length (heap st)) testing stable
                STABLE st1 Lr C S)
      as (o & st' & evs & Hrun & _ & Htrace & Hrep & Harch & _);
      [by left|apply lookup_snoc|by apply lookup_snoc_Some..|].
    exists (length (heap st)), Lr, st1, o, st', evs.
    split; [done|]. split; [apply lookup_snoc|]. split; [done|].
    split; [done|]. split; [done|]. split.
    + intros [Hin | Hin]%Hrep; apply Hn;
        rewrite ?elem_of_intersection, !elem_of_difference in Hin; tauto.
    + intros Hin%Harch. apply Hn.
      rewrite elem_of_intersection, elem_of_difference in Hin. tauto.
  - intros names Hscan Hnames. rewrite explain_run, Hscan.
    set (Le := explain_set _). set (st1 := State _ _ _).
    assert (¬ n ∈ Le) as Hn.
    { intros (_ & Hvis & _)%explain_set_entries; [|done]. congruence. }
    destruct (process_names STABLE "explain" (length (heap st)) testing stable
                "explain" st1 Le C S)
      as (o & st' & evs & Hrun & _ & Htrace & Hrep & Harch & _);
      [by right|apply lookup_snoc|by apply lookup_snoc_Some..|].
    exists (length (heap st)), Le, st1, o, st', evs.
    split; [done|]. split; [apply lookup_snoc|]. split; [done|].
    split; [done|]. split; [done|]. split.
    + intros [Hin | Hin]%Hrep; apply Hn;
        rewrite ?elem_of_intersection, !elem_of_difference in Hin; tauto.
    + intros Hin%Harch. apply Hn.
      rewrite elem_of_intersection, elem_of_difference in Hin. tauto.
Qed.

(** X12: when [apt-cache] cannot be started the script ends with [OSError]
    at once: [testing] is still empty, nothing is downloaded, read, printed
    or moved. *)
Theorem X12_no_apt_cache st :
  os_popen (world st) apt_cache = None →
  main STABLE st
  = (Raise OSError,
     State (heap st ++ [∅]) (world st) (trace st ++ [EPopen apt_cache])).
Proof.
  intros Hpopen. unfold main. rewrite bind_run, testing_run.
  fold apt_cache. by rewrite Hpopen.
Qed.

(** X13: when the cached index cannot be read the script ends with
    [OSError] before the directories are scanned: [stable] is still empty,
    nothing is printed and no file is moved. *)
Theorem X13_unreadable_index st w1 out :
  os_popen (world st) apt_cache = Some (w1, out) →
  os_isfile w1 "tools/Packages_amd64" = true →
  os_read w1 "tools/Packages_amd64" = None →
  main STABLE st
  = (Raise OSError,
     State (heap st ++ [testing_set out; ∅]) w1
           (trace st ++ [EPopen apt_cache])).
Proof.
  intros Hpopen Hfile Hread. unfold main.
  rewrite bind_run, testing_run. fold apt_cache. rewrite Hpopen.
  rewrite bind_run, download_exact. simpl. rewrite Hfile.
  rewrite bind_run, stable_run. simpl. rewrite Hread.
  by rewrite <-app_assoc.
Qed.

End ScriptMore.

(** ** The further properties, run *)

Lemma X1_scenario_ab :
  store_ab !! 0%nat = Some {["a"; "b"]} ∧
  store_ab !! 1%nat = Some {["a"]} ∧
  store_ab !! 2%nat = Some ∅ ∧
  ({["a"; "b"]} ∖ {["a"]}) ∩ ∅ = (∅ : gset string) ∧
  @process demo demo_os demo_order "bookworm" "rules" 0%nat 1%nat 2%nat
    "bookworm" (State store_ab bare [])
  = (Ret tt,
     State (store_ab ++ [{["a"; "b"]} ∖ {["a"]}; ∅;
                         ({["a"; "b"]} ∖ {["a"]}) ∖ ∅]) bare
           [header "rules"; deprecated_report "bookworm" [];
            unknown_report
              (Py.sorted (@iter demo_order (({["a"; "b"]} ∖ {["a"]}) ∖ ∅)))]).
Proof.
  assert (({["a"; "b"]} ∖ {["a"]}) ∩ ∅ = (∅ : gset string)) as HD
    by (by vm_compute).
  split; [reflexivity|]. split; [reflexivity|]. split; [reflexivity|].
  split; [exact HD|].
  exact (@X1_nothing_deprecated demo demo_os demo_order "bookworm" "rules"
           0%nat 1%nat 2%nat "bookworm" (State store_ab bare [])
           {["a"; "b"]} {["a"]} ∅ eq_refl eq_refl eq_refl HD).
Defined.

Lemma b_deprecated : "b" ∈ (({["a"; "b"; "c"]} ∖ {["a"]}) ∩ {["b"]} : gset string).
Proof. apply (bool_decide_unpack _). vm_compute. exact I. Defined.

Lemma X2_scenario_read_only :
  store_abc !! 0%nat = Some {["a"; "b"; "c"]} ∧
  store_abc !! 1%nat = Some {["a"]} ∧
  store_abc !! 2%nat = Some {["b"]} ∧
  @os_isdir demo readonly_os bare (destdir "bookworm") = false ∧
  @os_makedirs demo readonly_os bare (destdir "bookworm") = None ∧
  @process demo readonly_os demo_order "bookworm" "rules" 0%nat 1%nat 2%nat
    "bookworm" (State store_abc bare [])
  = (Raise OSError,
     State (store_abc ++ [{["b"; "c"]}; {["b"]}; {["c"]}]) bare
           [header "rules"; deprecated_report "bookworm" ["b"];
            EMakedirs "archive/bookworm"]).
Proof.
  split; [reflexivity|]. split; [reflexivity|]. split; [reflexivity|].
  split; [reflexivity|]. split; [reflexivity|].
  rewrite (@X2_destination_not_made demo readonly_os demo_order "bookworm"
             "rules" 0%nat 1%nat 2%nat "bookworm" (State store_abc bare [])
             {["a"; "b"; "c"]} {["a"]} {["b"]} "b"
             eq_refl eq_refl eq_refl b_deprecated eq_refl eq_refl).
  vm_compute. reflexivity.
Defined.

Lemma demo_keeps_directories : @keeps_directories demo demo_os.
Proof.
  split.
  - intros w d w'. simpl. destruct (bool_decide _); [done|].
    intros [= <-]. simpl. rewrite lookup_insert_eq. by apply bool_decide_eq_true_2.
  - intros w argv cwd w' status d. simpl. by intros [= <- _].
Defined.

Lemma X3_scenario_three_moves :
  store_moves !! 0%nat = Some {["a"; "b"; "c"; "d"]} ∧
  store_moves !! 1%nat = Some ∅ ∧
  store_moves !! 2%nat = Some {["a"; "b"; "c"]} ∧
  @keeps_directories demo demo_os ∧
  ∃ o st' pre mvs,
    @process demo demo_os demo_order "bookworm" "rules" 0%nat 1%nat 2%nat
      "bookworm" (State store_moves bare []) = (o, st') ∧
    (pre = [] ∨ pre = [EMakedirs (destdir "bookworm")]) ∧
    Forall (λ e, is_Some (git_mv_of e)) mvs ∧
    drop 2 (trace st')
    = pre ++ mvs
      ++ match o with
         | Ret _ => [unknown_report ["d"]]
         | Raise _ => []
         end.
Proof.
  split; [reflexivity|]. split; [reflexivity|]. split; [reflexivity|].
  split; [exact demo_keeps_directories|].
  destruct (@X3_destination_made_once demo demo_os demo_order "bookworm"
              "rules" 0%nat 1%nat 2%nat "bookworm" (State store_moves bare [])
              {["a"; "b"; "c"; "d"]} ∅ {["a"; "b"; "c"]}
              eq_refl eq_refl eq_refl demo_keeps_directories)
    as (o & st' & pre & mvs & Hrun & Htrace & Hpre & Hmvs & _).
  exists o, st', pre, mvs. split; [exact Hrun|]. split; [exact Hpre|].
  split; [exact Hmvs|]. rewrite Htrace.
  assert (Py.sorted (@iter demo_order
            (({["a"; "b"; "c"; "d"]} ∖ ∅) ∖ {["a"; "b"; "c"]})) = ["d"]) as ->
    by (vm_compute; reflexivity).
  reflexivity.
Defined.

Lemma X4_scenario_read_only :
  store_two !! 0%nat = Some {["a"; "b"; "c"]} ∧
  store_two !! 2%nat = Some {["a"]} ∧
  store_two !! 3%nat = Some {["b"]} ∧
  @os_isdir demo readonly_os bare (destdir "bookworm") = false ∧
  @os_makedirs demo readonly_os bare (destdir "bookworm") = None ∧
  @reports demo readonly_os demo_order "bookworm" 0%nat 1%nat 2%nat 3%nat
    (State store_two bare [])
  = (Raise OSError,
     State (store_two ++ [{["b"; "c"]}; {["b"]}; {["c"]}]) bare
           [header "rules"; deprecated_report "bookworm" ["b"];
            EMakedirs "archive/bookworm"]).
Proof.
  split; [reflexivity|]. split; [reflexivity|]. split; [reflexivity|].
  split; [reflexivity|]. split; [reflexivity|].
  rewrite (@X4_rules_failure_skips_explain demo readonly_os demo_order
             "bookworm" 0%nat 1%nat 2%nat 3%nat (State store_two bare [])
             {["a"; "b"; "c"]} {["a"]} {["b"]} "b"
             eq_refl eq_refl eq_refl b_deprecated eq_refl eq_refl).
  vm_compute. reflexivity.
Defined.

Lemma X5_scenario_offline :
  @os_isfile demo demo_os offline "tools/Packages_amd64" = false ∧
  @os_run demo demo_os offline ben_download (Some "tools") = Some (offline, 1) ∧
  @download demo demo_os (init offline)
  = (Raise (CalledProcessError 1),
     State [] offline [ERun ben_download (Some "tools") (Some 1)]) ∧
  @os_isfile demo demo_os raspbian "tools/Packages_amd64" = true ∧
  @download demo demo_os (init raspbian) = (Ret tt, init raspbian).
Proof.
  destruct (@X5_download demo demo_os (init offline)) as [_ Hmissing].
  destruct (Hmissing eq_refl) as (_ & Hfail & _).
  destruct (@X5_download demo demo_os (init raspbian)) as [Hcached _].
  split; [reflexivity|]. split; [reflexivity|].
  split; [exact (Hfail offline 1 eq_refl ltac:(discriminate))|].
  split; [reflexivity|]. exact (Hcached eq_refl).
Defined.

Example offline_run :
  @main demo demo_os demo_order "bookworm" (init offline)
  = (Raise (CalledProcessError 1),
     State [allow_list ∪ {["a"]}] offline
           [EPopen apt_cache; ERun ben_download (Some "tools") (Some 1)]).
Proof. vm_compute. reflexivity. Qed.

Lemma X6_scenario_offline :
  @main demo demo_os demo_order "bookworm" (init offline)
  = (Raise (CalledProcessError 1),
     State [allow_list ∪ {["a"]}] offline
           [EPopen apt_cache; ERun ben_download (Some "tools") (Some 1)]) ∧
  1 ≠ 0 ∧
  ∃ w1 out w2,
    @os_popen demo demo_os offline apt_cache = Some (w1, out) ∧
    @os_isfile demo demo_os w1 "tools/Packages_amd64" = false ∧
    @os_run demo demo_os w1 ben_download (Some "tools") = Some (w2, 1).
Proof.
  assert (@main demo demo_os demo_order "bookworm" (init offline)
          = (Raise (CalledProcessError 1),
             State [allow_list ∪ {["a"]}] offline
                   [EPopen apt_cache;
                    ERun ben_download (Some "tools") (Some 1)])) as Hrun
    by (vm_compute; reflexivity).
  split; [exact Hrun|].
  destruct (@X6_failed_download_is_fatal demo demo_os demo_order "bookworm"
              (init offline) _ 1 Hrun)
    as (Hne & w1 & out & w2 & Hpopen & Hfile & Hben & _).
  split; [exact Hne|]. exists w1, out, w2.
  split; [exact Hpopen|]. split; [exact Hfile|exact Hben].
Defined.

Lemma X7_scenario_raspbian :
  @os_popen demo demo_os raspbian apt_cache = Some (raspbian, "a" +:+ LF) ∧
  @os_isfile demo demo_os raspbian "tools/Packages_amd64" = true ∧
  @os_read demo demo_os raspbian "tools/Packages_amd64" = Some index_text ∧
  @main demo demo_os demo_order "bookworm" (init raspbian)
  = @reports demo demo_os demo_order "bookworm" 2%nat 3%nat 0%nat 1%nat
      (State [testing_set ("a" +:+ LF); stable_spec index_text;
              filters_set (Some ["raspberrypi-bootloader"; "b"; "c"]);
              explain_set None]
             raspbian [EPopen apt_cache]) ∧
  heap (@main demo demo_os demo_order "bookworm" (init raspbian)).2
  = [allow_list ∪ {["a"]}; {["a"; "b"]};
     {["raspberrypi-bootloader"; "b"; "c"]}; ∅;
     {["b"; "c"]}; {["b"]}; {["c"]}; ∅; ∅; ∅].
Proof.
  split; [reflexivity|]. split; [reflexivity|]. split; [reflexivity|].
  destruct (@X7_script_cached demo demo_os demo_order "bookworm"
              (init raspbian) raspbian ("a" +:+ LF) index_text
              eq_refl eq_refl eq_refl) as (Hrun & _ & Hheap).
  split; [exact Hrun|]. rewrite Hheap; vm_compute; reflexivity.
Defined.

Lemma X8_scenario_two_names :
  @os_popen demo demo_os two_names apt_cache
  = Some (two_names, unlines ["a"; "lib-b"]) ∧
  Forall (λ n, no_break n = true ∧ Py.rstrip n = n) ["a"; "lib-b"] ∧
  @testing demo demo_os (init two_names)
  = (Ret 0%nat,
     State [allow_list ∪ {["a"; "lib-b"]}] two_names [EPopen apt_cache]).
Proof.
  assert (Forall (λ n, no_break n = true ∧ Py.rstrip n = n) ["a"; "lib-b"])
    as Hnames by (repeat constructor).
  split; [reflexivity|]. split; [exact Hnames|].
  rewrite (@X8_testing_of_names demo demo_os (init two_names) two_names
             ["a"; "lib-b"] eq_refl Hnames).
  vm_compute. reflexivity.
Defined.

Lemma X9_scenario_raspbian :
  @testing demo demo_os (init raspbian)
  = (Ret 0%nat, State [allow_list ∪ {["a"]}] raspbian [EPopen apt_cache]) ∧
  ∃ C, [allow_list ∪ {["a"]}] !! 0%nat = Some C ∧ ∀ n, n ∈ C → Py.rstrip n = n.
Proof.
  assert (@testing demo demo_os (init raspbian)
          = (Ret 0%nat,
             State [allow_list ∪ {["a"]}] raspbian [EPopen apt_cache]))
    as Hrun by (vm_compute; reflexivity).
  split; [exact Hrun|].
  exact (@X9_testing_names_end_clean demo demo_os (init raspbian) _ _ Hrun).
Defined.

Lemma X10_scenario_raspbian :
  @stable demo demo_os (init raspbian)
  = (Ret 0%nat, State [{["a"; "b"]}] raspbian []) ∧
  ∃ X : gset string,
    ([{["a"; "b"]}] : list (gset string)) !! 0%nat = Some X ∧
    ∀ n, n ∈ X → Py.strip n = n.
Proof.
  assert (@stable demo demo_os (init raspbian)
          = (Ret 0%nat, State [{["a"; "b"]}] raspbian []))
    as Hrun by (vm_compute; reflexivity).
  split; [exact Hrun|].
  exact (@X10_stable_names_trimmed demo demo_os (init raspbian) _ _ Hrun).
Defined.

(** In the world [hidden] both names are stable and not current: [b] is
    moved and [.gitignore] is not seen. *)
Example hidden_rules_run :
  trace ((f ← @filters demo demo_os;
          @process demo demo_os demo_order "bookworm" "rules" f 0%nat 1%nat
            "bookworm") (State store_hidden hidden [])).2
  = [header "rules"; deprecated_report "bookworm" ["b"];
     EMakedirs "archive/bookworm";
     git_mv "rules" "bookworm" "b" (Some 0);
     unknown_report []].
Proof. vm_compute. reflexivity. Qed.

Lemma X11_scenario_hidden :
  store_hidden !! 0%nat = Some ∅ ∧
  store_hidden !! 1%nat = Some {[".gitignore"; "b"]} ∧
  Py.startswith ".gitignore" "." = true ∧
  @os_listdir demo demo_os hidden "rules" = Some [".gitignore"; "b"] ∧
  Forall (λ m, no_slash m = true) [".gitignore"; "b"] ∧
  ∃ f Lr st1 o st' evs,
    @filters demo demo_os (State store_hidden hidden []) = (Ret f, st1) ∧
    heap st1 !! f = Some Lr ∧
    ¬ ".gitignore" ∈ Lr ∧
    @process demo demo_os demo_order "bookworm" "rules" f 0%nat 1%nat
      "bookworm" st1 = (o, st') ∧
    trace st' = evs ∧
    ¬ reported ".gitignore" evs ∧ ¬ archived "rules" ".gitignore" evs.
Proof.
  assert (Forall (λ m, no_slash m = true) [".gitignore"; "b"]) as Hnames
    by (repeat constructor).
  split; [reflexivity|]. split; [reflexivity|]. split; [reflexivity|].
  split; [reflexivity|]. split; [exact Hnames|].
  destruct (@X11_hidden_entries_skipped demo demo_os demo_order "bookworm"
              0%nat 1%nat (State store_hidden hidden []) ∅
              {[".gitignore"; "b"]} ".gitignore" eq_refl eq_refl eq_refl)
    as [Hrules _].
  exact (Hrules [".gitignore"; "b"] eq_refl Hnames).
Defined.

Lemma X12_scenario_no_apt :
  @os_popen demo no_apt_os raspbian apt_cache = None ∧
  @main demo no_apt_os demo_order "bookworm" (init raspbian)
  = (Raise OSError, State [∅] raspbian [EPopen apt_cache]).
Proof.
  split; [reflexivity|].
  exact (@X12_no_apt_cache demo no_apt_os demo_order "bookworm"
           (init raspbian) eq_refl).
Defined.

Lemma X13_scenario_unreadable :
  @os_popen demo unreadable_os raspbian apt_cache
  = Some (raspbian, "a" +:+ LF) ∧
  @os_isfile demo unreadable_os raspbian "tools/Packages_amd64" = true ∧
  @os_read demo unreadable_os raspbian "tools/Packages_amd64" = None ∧
  @main demo unreadable_os demo_order "bookworm" (init raspbian)
  = (Raise OSError,
     State [testing_set ("a" +:+ LF); ∅] raspbian [EPopen apt_cache]).
Proof.
  split; [reflexivity|]. split; [reflexivity|]. split; [reflexivity|].
  exact (@X13_unreadable_index demo unreadable_os demo_order "bookworm"
           (init raspbian) raspbian ("a" +:+ LF) eq_refl eq_refl eq_refl).
Defined.
